(** * FacilMap synchronisation core: geometry store, mutation broadcast
      and client reconciliation

    Shallow embedding of
    - [src/server/lib/databaseBackendSequelize.js] (bbox conditions, line
      point queries, [setLinePoints], [DatabaseLines]),
    - [src/server/lib/database.js] (mutations followed by a broadcast),
    - the client class of [src/unnamed/part_000] (event handlers,
      [updateBbox], [_mergeTrackPoints]).

    Coordinates are JavaScript / SQL numbers; they are only ever compared,
    so they are modelled as rationals with the usual order.  Unsigned
    integer columns ([idx], [zoom], ids) are [N]. *)

From Stdlib Require Import QArith Lqa.
From stdpp Require Import gmap strings list sorting.

Local Open Scope string_scope.
Local Set Warnings "-register-all".

(* ===================================================================== *)
(** ** Numbers *)
(* ===================================================================== *)

(** JavaScript [a < b] on two (non-NaN) numbers. *)
Definition Qlt_bool (a b : Q) : bool :=
  match (a ?= b)%Q with Lt => true | _ => false end.

(** An unsigned integer column read as a number. *)
Definition num (n : N) : Q := inject_Z (Z.of_N n).

(* ===================================================================== *)
(** ** Sequelize [where] objects *)
(* ===================================================================== *)

(** The operators that occur in the modelled queries:
    [{ lte: v }], [{ gte: v }], [{ lt: v }], [{ gt: v }], plain equality
    and [Op.in]. *)
Inductive Cmp : Type :=
| lte (v : Q)
| gte (v : Q)
| lt (v : Q)
| gt (v : Q)
| eq_to (v : Q)
| in_list (vs : list Q).

(** A [where] value: an object literal mapping column names to operator
    objects (the empty object [{ }] puts no restriction),
    [Sequelize.and(...)] and [Sequelize.or(...)]. *)
Inductive Where : Type :=
| W_obj (fields : list (string * list Cmp))
| W_and (cs : list Where)
| W_or (cs : list Where).

Definition evalCmp (x : Q) (c : Cmp) : bool :=
  match c with
  | lte v => Qle_bool x v
  | gte v => Qle_bool v x
  | lt v => Qlt_bool x v
  | gt v => Qlt_bool v x
  | eq_to v => Qeq_bool x v
  | in_list vs => existsb (Qeq_bool x) vs
  end.

(** All operators of one column hold. A column the row does not have
    never matches. *)
Definition evalField (row : string -> option Q) (f : string * list Cmp) : bool :=
  match row (fst f) with
  | Some x => forallb (evalCmp x) (snd f)
  | None => false
  end.

Fixpoint evalWhere (row : string -> option Q) (w : Where) : bool :=
  match w with
  | W_obj fields => forallb (evalField row) fields
  | W_and cs => forallb (evalWhere row) cs
  | W_or cs => existsb (evalWhere row) cs
  end.

(* ===================================================================== *)
(** ** Bounding boxes *)
(* ===================================================================== *)

(** [{ top, bottom, left, right }] *)
Module Bbox.
Record t : Type := mk { top : Q; bottom : Q; left : Q; right : Q }.
End Bbox.

(** A bbox as the queries receive it: the four sides, the [zoom] and the
    optional nested [except] bbox. *)
Module BboxWithZoom.
Record t : Type := mk {
  top : Q; bottom : Q; left : Q; right : Q;
  zoom : N;
  except : option Bbox.t
}.

Definition make (b : Bbox.t) (z : N) (e : option Bbox.t) : t :=
  mk (Bbox.top b) (Bbox.bottom b) (Bbox.left b) (Bbox.right b) z e.
End BboxWithZoom.

(** The inner helper [cond(key, value)] of [_makeBboxCondition]. *)
Definition cond (prefix key : string) (value : list Cmp) : Where :=
  W_obj [(prefix +:+ key, value)].

(** [_makeBboxCondition(bbox, prefix)],
    databaseBackendSequelize.js lines 530-562. *)
Definition _makeBboxCondition (bbox : option BboxWithZoom.t) (prefix : option string) : Where :=
  match bbox with
  | None => W_obj []
  | Some bbox =>
    let prefix := default "" prefix in
    let conditions :=
      [ cond prefix "lat" [lte (BboxWithZoom.top bbox); gte (BboxWithZoom.bottom bbox)] ] in
    let conditions :=
      (conditions ++
      [ if Qlt_bool (BboxWithZoom.right bbox) (BboxWithZoom.left bbox)
        then W_or [ cond prefix "lon" [gte (BboxWithZoom.left bbox)];
                    cond prefix "lon" [lte (BboxWithZoom.right bbox)] ]
        else cond prefix "lon" [gte (BboxWithZoom.left bbox); lte (BboxWithZoom.right bbox)] ])%list in
    let conditions :=
      match BboxWithZoom.except bbox with
      | Some except =>
        let exceptConditions :=
          [ W_or [ cond prefix "lat" [gt (Bbox.top except)];
                   cond prefix "lat" [lt (Bbox.bottom except)] ] ] in
        let exceptConditions :=
          (exceptConditions ++
          [ if Qlt_bool (Bbox.right except) (Bbox.left except)
            then cond prefix "lon" [lt (Bbox.left except); gt (Bbox.right except)]
            else W_or [ cond prefix "lon" [lt (Bbox.left except)];
                        cond prefix "lon" [gt (Bbox.right except)] ] ])%list in
        (conditions ++ [ W_or exceptConditions ])%list
      | None => conditions
      end in
    W_and conditions
  end.

(* ===================================================================== *)
(** ** Track points and the LinePoints table *)
(* ===================================================================== *)

Abbreviation ID := N.

(** A track point as it travels between server and client. *)
Module TrackPoint.
Record t : Type := mk {
  lat : Q; lon : Q; zoom : N; idx : N; ele : option Z
}.
End TrackPoint.

(** A row of the LinePoints table. *)
Module LinePoint.
Record t : Type := mk {
  lineId : ID;
  lat : Q; lon : Q; zoom : N; idx : N; ele : option Z
}.

(** The row seen by a [where] object. *)
Definition col (p : t) (name : string) : option Q :=
  if String.eqb name "lat" then Some (lat p)
  else if String.eqb name "lon" then Some (lon p)
  else if String.eqb name "zoom" then Some (num (zoom p))
  else if String.eqb name "idx" then Some (num (idx p))
  else if String.eqb name "lineId" then Some (num (lineId p))
  else None.

(** [{ ...trackPoint, lineId }] *)
Definition ofTrackPoint (lineId : ID) (tp : TrackPoint.t) : t :=
  mk lineId (TrackPoint.lat tp) (TrackPoint.lon tp) (TrackPoint.zoom tp)
     (TrackPoint.idx tp) (TrackPoint.ele tp).

(** [omit(point, ["lineId", "pos"])] *)
Definition toTrackPoint (p : t) : TrackPoint.t :=
  TrackPoint.mk (lat p) (lon p) (zoom p) (idx p) (ele p).
End LinePoint.

(** The table. The order of the list is the order in which the store
    enumerates the rows when a query asks for none (SQL leaves it open:
    insertion order, or the order of the index the query runs along). *)
Abbreviation LinePoints := (list LinePoint.t).

(** [Model.findAll({ where })] without an [order]: the matching rows, as
    the store enumerates them. *)
Definition findAll (tbl : LinePoints) (w : Where) : list LinePoint.t :=
  List.filter (fun p => evalWhere (LinePoint.col p) w) tbl.

(** [order: "idx"] *)
Definition idx_le (p q : LinePoint.t) : Prop := (LinePoint.idx p <= LinePoint.idx q)%N.

Global Instance idx_le_dec : RelDecision idx_le.
Proof. intros p q. unfold idx_le. apply _. Defined.

Definition orderByIdx (rows : list LinePoint.t) : list LinePoint.t :=
  merge_sort idx_le rows.

(** [Line.build({ id: lineId }).getLinePoints(options)]: the association
    getter adds the foreign key to the [where] of the options. *)
Definition Line_getLinePoints (tbl : LinePoints) (lineId : ID) (w : Where) : list LinePoint.t :=
  findAll tbl (W_and [ W_obj [("lineId", [eq_to (num lineId)])]; w ]).

(** The [where] of [getLinePointsByBbox]:
    [Sequelize.and(_makeBboxCondition(b), b ? { zoom: { lte: b.zoom } } : null)] *)
Definition getLinePointsByBbox_where (bboxWithZoom : option BboxWithZoom.t) : Where :=
  W_and (_makeBboxCondition bboxWithZoom None ::
         match bboxWithZoom with
         | Some b => [ W_obj [("zoom", [lte (num (BboxWithZoom.zoom b))])] ]
         | None => []
         end).

(** The rows [getLinePointsByBbox] selects, ordered. *)
Definition getLinePointsByBbox_rows (tbl : LinePoints) (lineId : ID)
    (bboxWithZoom : option BboxWithZoom.t) : list LinePoint.t :=
  orderByIdx (Line_getLinePoints tbl lineId (getLinePointsByBbox_where bboxWithZoom)).

(** [getLinePointsByBbox(lineId, bboxWithZoom)],
    databaseBackendSequelize.js lines 503-509; [attributes: [ "idx" ]]
    keeps the index of each selected row only. *)
Definition getLinePointsByBbox (tbl : LinePoints) (lineId : ID)
    (bboxWithZoom : option BboxWithZoom.t) : list N :=
  map LinePoint.idx (getLinePointsByBbox_rows tbl lineId bboxWithZoom).

(** The inclusion test of [_makeBboxCondition] for a bbox without
    [except], at a position. *)
Definition positionRow (lat lon : Q) (name : string) : option Q :=
  if String.eqb name "lat" then Some lat
  else if String.eqb name "lon" then Some lon
  else None.

Definition inBbox (b : Bbox.t) (lat lon : Q) : bool :=
  evalWhere (positionRow lat lon)
            (_makeBboxCondition (Some (BboxWithZoom.make b 0 None)) None).

(** The column validators [getLatType()] and [getLonType()]. *)
Definition validLat (lat : Q) : bool := Qle_bool (-90) lat && Qle_bool lat 90.
Definition validLon (lon : Q) : bool := Qle_bool (-180) lon && Qle_bool lon 180.

Definition validRow (p : LinePoint.t) : Prop :=
  validLat (LinePoint.lat p) = true /\ validLon (LinePoint.lon p) = true.

(** [b1] lies within [b2]: every position of the coordinate domain that
    [b1] matches, [b2] matches. A bbox with [right < left] wraps the
    antimeridian. *)
Definition bboxContained (b1 b2 : Bbox.t) : Prop :=
  forall lat lon, validLat lat = true -> validLon lon = true ->
    inBbox b1 lat lon = true -> inBbox b2 lat lon = true.

(** A decidable sufficient test for [bboxContained], on the sides. *)
Definition bboxWithin (b1 b2 : Bbox.t) : bool :=
  Qle_bool (Bbox.bottom b2) (Bbox.bottom b1) && Qle_bool (Bbox.top b1) (Bbox.top b2) &&
  match Qlt_bool (Bbox.right b1) (Bbox.left b1), Qlt_bool (Bbox.right b2) (Bbox.left b2) with
  | false, false | true, true =>
      Qle_bool (Bbox.left b2) (Bbox.left b1) && Qle_bool (Bbox.right b1) (Bbox.right b2)
  | false, true =>
      Qle_bool (Bbox.left b2) (Bbox.left b1) || Qle_bool (Bbox.right b1) (Bbox.right b2)
  | true, false =>
      Qle_bool (Bbox.left b2) (-180) && Qle_bool 180 (Bbox.right b2)
  end.

(* ===================================================================== *)
(** ** Replacing the points of a line *)
(* ===================================================================== *)

(** [LinePoint.destroy({ where })]: one statement, removes the matching
    rows. *)
Definition LinePoint_destroy (w : Where) (tbl : LinePoints) : LinePoints :=
  List.filter (fun p => negb (evalWhere (LinePoint.col p) w)) tbl.

(** [LinePoint.bulkCreate(rows)]: one statement, appends the rows. *)
Definition LinePoint_bulkCreate (rows : list LinePoint.t) (tbl : LinePoints) : LinePoints :=
  (tbl ++ rows)%list.

(** A database statement; each one is executed on its own, and other
    requests are served between two statements of a promise chain. *)
Definition Statement : Type := LinePoints -> LinePoints.

(** The table after all statements. *)
Definition run (stmts : list Statement) (tbl : LinePoints) : LinePoints :=
  fold_left (fun t stmt => stmt t) stmts tbl.

(** The tables a reader can find while the statements run: the initial
    one and the one after each statement. *)
Fixpoint observable (stmts : list Statement) (tbl : LinePoints) : list LinePoints :=
  tbl :: match stmts with
         | [] => []
         | stmt :: rest => observable rest (stmt tbl)
         end.

(** [setLinePoints(lineId, trackPoints)],
    databaseBackendSequelize.js lines 519-528: the statements it issues,
    in order. *)
Definition setLinePoints_statements (lineId : ID) (trackPoints : list TrackPoint.t)
    : list Statement :=
  let create := map (LinePoint.ofTrackPoint lineId) trackPoints in
  [ LinePoint_destroy (W_obj [("lineId", [eq_to (num lineId)])]);
    LinePoint_bulkCreate create ].

Definition setLinePoints (lineId : ID) (trackPoints : list TrackPoint.t)
    (tbl : LinePoints) : LinePoints :=
  run (setLinePoints_statements lineId trackPoints) tbl.

(** The stored points of a line, in storage order. *)
Definition pointsOf (lineId : ID) (tbl : LinePoints) : list LinePoint.t :=
  List.filter (fun p => N.eqb (LinePoint.lineId p) lineId) tbl.

(** Highland's [batch(n)] and the slicing loop of a chunked insert: cut a
    list into pieces of [n] elements, the last one possibly shorter.
    The fuel bounds the number of pieces. *)
Fixpoint batch_aux {A : Type} (fuel n : nat) (l : list A) : list (list A) :=
  match fuel with
  | O => []
  | S fuel =>
    match l with
    | [] => []
    | _ => take n l :: batch_aux fuel n (drop n l)
    end
  end.

Definition batch {A : Type} (n : nat) (l : list A) : list (list A) :=
  batch_aux (length l) n l.

(* ===================================================================== *)
(** ** DatabaseLines *)
(* ===================================================================== *)

(** A row of the Lines table; the modelled queries read [id] and [padId]
    only. *)
Module LineModel.
Record t : Type := mk { id : ID; padId : string }.
End LineModel.

(** An element of the stream [getLinePointsForPad] returns. *)
Module LineTrackPoints.
Record t : Type := mk { id : ID; trackPoints : list TrackPoint.t }.
End LineTrackPoints.

(** lodash [groupBy(collection, key)]: an object whose property [k] holds
    the elements with key [k], in the order of the collection. *)
Definition groupBy {A : Type} (key : A -> N) (l : list A) : gmap N (list A) :=
  foldl (fun m x => <[key x := (default [] (m !! key x) ++ [x])%list]> m) ∅ l.

Definition key_le {A : Type} (a b : N * A) : Prop := (a.1 <= b.1)%N.

Global Instance key_le_dec {A : Type} : RelDecision (@key_le A).
Proof. intros a b. unfold key_le. apply _. Defined.

(** [Object.entries(obj)] of an object with integer keys: ascending key
    order. *)
Definition Object_entries {A : Type} (obj : gmap N A) : list (N * A) :=
  merge_sort key_le (map_to_list obj).

Section DatabaseLines.

(** [makeBboxCondition] is imported from helpers.js; it yields the
    [where] value for a bbox. *)
Variable makeBboxCondition : BboxWithZoom.t -> Where.

(** The size of the chunks of [_bulkCreateInBatches]. *)
Variable ITEMS_PER_BATCH : nat.

(** The [findAll] of [getLinePointsForPad] for one batch of line ids. *)
Definition getLinePointsForPad_batch (tbl : LinePoints)
    (bboxWithZoom : BboxWithZoom.t) (lineIds : list ID) : list LineTrackPoints.t :=
  let linePoints :=
    findAll tbl
      (W_and [ W_obj [ ("zoom", [lte (num (BboxWithZoom.zoom bboxWithZoom))]);
                       ("lineId", [in_list (map num lineIds)]) ];
               makeBboxCondition bboxWithZoom ]) in
  map (fun '(key, val) =>
         LineTrackPoints.mk key (map LinePoint.toTrackPoint val))
      (Object_entries (groupBy LinePoint.lineId linePoints)).

(** [DatabaseLines.getLinePointsForPad(padId, bboxWithZoom)],
    databaseBackendSequelize.js lines 881-904. *)
Definition getLinePointsForPad (lines : list LineModel.t) (tbl : LinePoints)
    (padId : string) (bboxWithZoom : BboxWithZoom.t) : list LineTrackPoints.t :=
  let ids :=
    map LineModel.id (List.filter (fun l => String.eqb (LineModel.padId l) padId) lines) in
  concat (map (getLinePointsForPad_batch tbl bboxWithZoom)
              (batch (N.to_nat 50000) ids)).

(** The rows of line [k] that the [findAll] of a pad query selects, in
    table order. *)
Definition padSelected (tbl : LinePoints) (b : BboxWithZoom.t) (k : ID)
    : list LinePoint.t :=
  List.filter
    (fun p => N.eqb (LinePoint.lineId p) k
              && (N.leb (LinePoint.zoom p) (BboxWithZoom.zoom b)
                  && evalWhere (LinePoint.col p) (makeBboxCondition b))) tbl.

(** Modelled from the spec: [_bulkCreateInBatches] of helpers.js is not
    among the sources; it persists the rows chunk after chunk (bounded
    batch size), one [bulkCreate] per chunk, and returns the created
    rows. *)
Definition _bulkCreateInBatches (create : list LinePoint.t) : list Statement :=
  map LinePoint_bulkCreate (batch ITEMS_PER_BATCH create).

(** [DatabaseLines._setLinePoints(padId, lineId, trackPoints, _noEvent)],
    lines 859-872: the statements it issues. *)
Definition _setLinePoints_statements (lineId : ID) (trackPoints : list TrackPoint.t)
    : list Statement :=
  let create := map (LinePoint.ofTrackPoint lineId) trackPoints in
  LinePoint_destroy (W_obj [("lineId", [eq_to (num lineId)])])
    :: _bulkCreateInBatches create.

(** The ["linePoints"] event it emits at the end, unless [_noEvent]. *)
Definition _setLinePoints_emit (padId : string) (lineId : ID)
    (trackPoints : list TrackPoint.t) (_noEvent : bool)
    : option (string * ID * list TrackPoint.t) :=
  let points := map (LinePoint.ofTrackPoint lineId) trackPoints in
  if _noEvent then None
  else Some (padId, lineId, map LinePoint.toTrackPoint points).

Definition _setLinePoints (lineId : ID) (trackPoints : list TrackPoint.t)
    (tbl : LinePoints) : LinePoints :=
  run (_setLinePoints_statements lineId trackPoints) tbl.

End DatabaseLines.

(* ===================================================================== *)
(** ** database.js: a mutation, then the broadcast *)
(* ===================================================================== *)

(** An error value handed to a callback. *)
Abbreviation Err := string.

(** JavaScript truthiness of the [err] argument of a callback ([None] is
    [null] / [undefined]; the empty string is falsy as well). *)
Definition truthy (err : option Err) : bool :=
  match err with
  | Some e => negb (String.eqb e "")
  | None => false
  end.

(** [s.trim()] on ASCII strings. *)
Fixpoint trimStart (s : string) : string :=
  match s with
  | String a rest => if Ascii.is_space a then trimStart rest else s
  | EmptyString => EmptyString
  end.

Definition trim (s : string) : string :=
  String.rev (trimStart (String.rev (trimStart s))).

Module Position.
Record t : Type := mk { lat : Q; lon : Q }.
End Position.

(** An object as the backend stores and returns it. Of its properties
    database.js reads [_pad], [id], [position] and [name]. *)
Module Doc.
Record t : Type := mk {
  _pad : string;
  id : string;
  position : option Position.t;
  name : option string;
  other : list (string * string)
}.
End Doc.

(** The calls into the persistence backend. *)
Inductive BackendCall : Type :=
| B_getPadData (padId : string)
| B_createPad (padId : string)
| B_createView (padId : string) (data : Doc.t)
| B_updateView (viewId : string) (data : Doc.t)
| B_deleteView (viewId : string)
| B_createMarker (padId : string) (data : Doc.t)
| B_updateMarker (markerId : string) (data : Doc.t)
| B_deleteMarker (markerId : string)
| B_createLine (padId : string) (data : Doc.t)
| B_updateLine (lineId : string) (data : Doc.t)
| B_deleteLine (lineId : string).

(** What is broadcast: the object, or [{ id: data.id }]. *)
Inductive Payload : Type :=
| P_doc (data : Doc.t)
| P_id (id : string).

(** What a function of database.js does, in order: it calls the backend,
    it notifies the listeners of a pad, it calls its caller back, or it
    throws on reading a property of [null]. *)
Inductive Effect : Type :=
| Call (c : BackendCall)
| NotifyPadListeners (padId : string) (position : option Position.t)
                     (eventType : string) (data : Payload)
| Callback (err : option Err) (data : option Doc.t)
| ThrowTypeError.

(** The arguments [(err, data)] the backend passes to the callback it was
    given. *)
Abbreviation Response := (option Err * option Doc.t)%type.

(** The common shape of the callbacks given to the backend by the
    mutations of markers, lines and views,
    [function(err, data) { if(err) return callback(err);
       listeners.notifyPadListeners(...); callback(null, data); }],
    where the arguments of the notification read a property of [data]
    ([data._pad], [data.position] or [data.id]) and so throw when [data]
    is [null]. *)
Definition thenNotify (resp : Response)
    (notify : Doc.t -> Effect) : list Effect :=
  let '(err, data) := resp in
  if truthy err then [ Callback err None ]
  else match data with
       | Some data => [ notify data; Callback None (Some data) ]
       | None => [ ThrowTypeError ]
       end.

(** [getPadData(padId, callback)], lines 4-11. [lookup] and [created] are
    the answers of [backend.getPadData] and [backend.createPad]. *)
Definition getPadData (padId : string) (lookup created : Response) : list Effect :=
  Call (B_getPadData padId) ::
  let '(err, data) := lookup in
  if truthy err || bool_decide (data <> None) then [ Callback err data ]
  else [ Call (B_createPad padId); Callback (fst created) (snd created) ].

(** [data.name == null || data.name.trim().length == 0] *)
Definition noName (data : Doc.t) : bool :=
  match Doc.name data with
  | None => true
  | Some name => Nat.eqb (String.length (trim name)) 0
  end.

(** [createView], lines 27-38. *)
Definition createView (padId : string) (data : Doc.t) (resp : Response) : list Effect :=
  if noName data then [ Callback (Some "No name provided.") None ]
  else
    Call (B_createView padId data) ::
    thenNotify resp (fun data => NotifyPadListeners (Doc._pad data) None "view" (P_doc data)).

(** [updateView], lines 40-51. *)
Definition updateView (viewId : string) (data : Doc.t) (resp : Response) : list Effect :=
  if noName data then [ Callback (Some "No name provided.") None ]
  else
    Call (B_updateView viewId data) ::
    thenNotify resp (fun data => NotifyPadListeners (Doc._pad data) None "view" (P_doc data)).

(** [deleteView], lines 53-61. *)
Definition deleteView (viewId : string) (resp : Response) : list Effect :=
  Call (B_deleteView viewId) ::
  thenNotify resp (fun data =>
    NotifyPadListeners (Doc._pad data) None "deleteView" (P_id (Doc.id data))).

(** [createMarker], lines 67-75. *)
Definition createMarker (padId : string) (data : Doc.t) (resp : Response) : list Effect :=
  Call (B_createMarker padId data) ::
  thenNotify resp (fun data =>
    NotifyPadListeners padId (Doc.position data) "marker" (P_doc data)).

(** [updateMarker], lines 77-85. *)
Definition updateMarker (markerId : string) (data : Doc.t) (resp : Response) : list Effect :=
  Call (B_updateMarker markerId data) ::
  thenNotify resp (fun data =>
    NotifyPadListeners (Doc._pad data) (Doc.position data) "marker" (P_doc data)).

(** [deleteMarker], lines 87-95. *)
Definition deleteMarker (markerId : string) (resp : Response) : list Effect :=
  Call (B_deleteMarker markerId) ::
  thenNotify resp (fun data =>
    NotifyPadListeners (Doc._pad data) (Doc.position data) "deleteMarker"
                       (P_id (Doc.id data))).

(** [createLine], lines 101-110. *)
Definition createLine (padId : string) (data : Doc.t) (resp : Response) : list Effect :=
  Call (B_createLine padId data) ::
  thenNotify resp (fun data => NotifyPadListeners (Doc._pad data) None "line" (P_doc data)).

(** [updateLine], lines 112-121. *)
Definition updateLine (data : Doc.t) (resp : Response) : list Effect :=
  Call (B_updateLine (Doc.id data) data) ::
  thenNotify resp (fun data => NotifyPadListeners (Doc._pad data) None "line" (P_doc data)).

(** [deleteLine], lines 123-132. *)
Definition deleteLine (lineId : string) (resp : Response) : list Effect :=
  Call (B_deleteLine lineId) ::
  thenNotify resp (fun data =>
    NotifyPadListeners (Doc._pad data) None "deleteLine" (P_id (Doc.id data))).

(** The mutation requests on markers, lines and views. *)
Inductive Mutation : Type :=
| CreateView (padId : string) (data : Doc.t)
| UpdateView (viewId : string) (data : Doc.t)
| DeleteView (viewId : string)
| CreateMarker (padId : string) (data : Doc.t)
| UpdateMarker (markerId : string) (data : Doc.t)
| DeleteMarker (markerId : string)
| CreateLine (padId : string) (data : Doc.t)
| UpdateLine (data : Doc.t)
| DeleteLine (lineId : string).

Definition perform (m : Mutation) (resp : Response) : list Effect :=
  match m with
  | CreateView padId data => createView padId data resp
  | UpdateView viewId data => updateView viewId data resp
  | DeleteView viewId => deleteView viewId resp
  | CreateMarker padId data => createMarker padId data resp
  | UpdateMarker markerId data => updateMarker markerId data resp
  | DeleteMarker markerId => deleteMarker markerId resp
  | CreateLine padId data => createLine padId data resp
  | UpdateLine data => updateLine data resp
  | DeleteLine lineId => deleteLine lineId resp
  end.

Definition isNotify (e : Effect) : bool :=
  match e with NotifyPadListeners _ _ _ _ => true | _ => false end.

Definition isCall (e : Effect) : bool :=
  match e with Call _ => true | _ => false end.

(** The broadcasts among the effects. *)
Definition broadcasts (effects : list Effect) : list Effect :=
  List.filter isNotify effects.

(** The write was handed to the backend, and the backend reported no
    error and returned the written object. *)
Definition writeSucceeded (effects : list Effect) (resp : Response) : Prop :=
  existsb isCall effects = true /\ truthy (fst resp) = false /\ snd resp <> None.

(** The request did not reach the backend, or the backend reported an
    error. *)
Definition writeFailed (effects : list Effect) (resp : Response) : Prop :=
  existsb isCall effects = false \/ truthy (fst resp) = true.

(* ===================================================================== *)
(** ** The client *)
(* ===================================================================== *)

(** The objects of facilmap-types as far as the client looks into them:
    their [id]; the remaining properties are carried along. *)
Module Marker.
Record t : Type := mk { id : ID; other : list (string * string) }.
End Marker.

Module Line.
Record t : Type := mk { id : ID; other : list (string * string) }.
End Line.

Module View.
Record t : Type := mk { id : ID; other : list (string * string) }.
End View.

Module Type_.
Record t : Type := mk { id : ID; other : list (string * string) }.
End Type_.

Module HistoryEntry.
Record t : Type := mk { id : ID; other : list (string * string) }.
End HistoryEntry.

Module PadData.
Record t : Type := mk {
  id : string;
  writeId : option string;
  adminId : option string;
  writable : option N;
  defaultViewId : option ID;
  other : list (string * string)
}.

Definition set_defaultViewId (v : option ID) (d : t) : t :=
  mk (id d) (writeId d) (adminId d) (writable d) v (other d).
End PadData.

(** [interface TrackPoints { [idx: number]: TrackPoint; length: number }] *)
Module TrackPoints.
Record t : Type := mk { points : gmap N TrackPoint.t; length : N }.

(** [{ length: 0 }] *)
Definition empty : t := mk ∅ 0.
End TrackPoints.

Module LineWithTrackPoints.
Record t : Type := mk { line : Line.t; trackPoints : TrackPoints.t }.

Definition set_trackPoints (tp : TrackPoints.t) (l : t) : t := mk (line l) tp.
End LineWithTrackPoints.

Module RouteWithTrackPoints.
Record t : Type := mk {
  routeId : option string;
  trackPoints : TrackPoints.t;
  other : list (string * string)
}.

Definition set_trackPoints (tp : TrackPoints.t) (r : t) : t :=
  mk (routeId r) tp (other r).
End RouteWithTrackPoints.

(** The fields of the client object that the handlers of map events and
    [updateBbox] read or write. *)
Module Client.
Record t : Type := mk {
  disconnected : bool;
  padId : option string;
  bbox : option BboxWithZoom.t;
  padData : option PadData.t;
  readonly : option bool;
  writable : option N;
  deleted : bool;
  markers : gmap ID Marker.t;
  lines : gmap ID LineWithTrackPoints.t;
  views : gmap ID View.t;
  types : gmap ID Type_.t;
  history : gmap ID HistoryEntry.t;
  route : option RouteWithTrackPoints.t;
  routes : gmap string RouteWithTrackPoints.t;
  loading : Z
}.

Definition set_disconnected v c :=
  mk v (padId c) (bbox c) (padData c) (readonly c) (writable c) (deleted c)
     (markers c) (lines c) (views c) (types c) (history c) (route c) (routes c) (loading c).
Definition set_padId v c :=
  mk (disconnected c) v (bbox c) (padData c) (readonly c) (writable c) (deleted c)
     (markers c) (lines c) (views c) (types c) (history c) (route c) (routes c) (loading c).
Definition set_bbox v c :=
  mk (disconnected c) (padId c) v (padData c) (readonly c) (writable c) (deleted c)
     (markers c) (lines c) (views c) (types c) (history c) (route c) (routes c) (loading c).
Definition set_padData v c :=
  mk (disconnected c) (padId c) (bbox c) v (readonly c) (writable c) (deleted c)
     (markers c) (lines c) (views c) (types c) (history c) (route c) (routes c) (loading c).
Definition set_readonly v c :=
  mk (disconnected c) (padId c) (bbox c) (padData c) v (writable c) (deleted c)
     (markers c) (lines c) (views c) (types c) (history c) (route c) (routes c) (loading c).
Definition set_writable v c :=
  mk (disconnected c) (padId c) (bbox c) (padData c) (readonly c) v (deleted c)
     (markers c) (lines c) (views c) (types c) (history c) (route c) (routes c) (loading c).
Definition set_deleted v c :=
  mk (disconnected c) (padId c) (bbox c) (padData c) (readonly c) (writable c) v
     (markers c) (lines c) (views c) (types c) (history c) (route c) (routes c) (loading c).
Definition set_markers v c :=
  mk (disconnected c) (padId c) (bbox c) (padData c) (readonly c) (writable c) (deleted c)
     v (lines c) (views c) (types c) (history c) (route c) (routes c) (loading c).
Definition set_lines v c :=
  mk (disconnected c) (padId c) (bbox c) (padData c) (readonly c) (writable c) (deleted c)
     (markers c) v (views c) (types c) (history c) (route c) (routes c) (loading c).
Definition set_views v c :=
  mk (disconnected c) (padId c) (bbox c) (padData c) (readonly c) (writable c) (deleted c)
     (markers c) (lines c) v (types c) (history c) (route c) (routes c) (loading c).
Definition set_types v c :=
  mk (disconnected c) (padId c) (bbox c) (padData c) (readonly c) (writable c) (deleted c)
     (markers c) (lines c) (views c) v (history c) (route c) (routes c) (loading c).
Definition set_history v c :=
  mk (disconnected c) (padId c) (bbox c) (padData c) (readonly c) (writable c) (deleted c)
     (markers c) (lines c) (views c) (types c) v (route c) (routes c) (loading c).
Definition set_route v c :=
  mk (disconnected c) (padId c) (bbox c) (padData c) (readonly c) (writable c) (deleted c)
     (markers c) (lines c) (views c) (types c) (history c) v (routes c) (loading c).
Definition set_routes v c :=
  mk (disconnected c) (padId c) (bbox c) (padData c) (readonly c) (writable c) (deleted c)
     (markers c) (lines c) (views c) (types c) (history c) (route c) v (loading c).
Definition set_loading v c :=
  mk (disconnected c) (padId c) (bbox c) (padData c) (readonly c) (writable c) (deleted c)
     (markers c) (lines c) (views c) (types c) (history c) (route c) (routes c) v.
End Client.

(** The first loop of [_mergeTrackPoints]:
    [ret[newTrackPoints[i].idx] = newTrackPoints[i]] for every [i]. *)
Definition assignTrackPoints (ret : gmap N TrackPoint.t)
    (newTrackPoints : list TrackPoint.t) : gmap N TrackPoint.t :=
  foldl (fun ret p => <[TrackPoint.idx p := p]> ret) ret newTrackPoints.

(** Its second loop: [ret.length] becomes the maximum of [parseInt(i) + 1]
    over the indexes [i] of [ret], and 0 if there is none. *)
Definition trackPointsLength (ret : gmap N TrackPoint.t) : N :=
  map_fold (fun i _ length => N.max length (i + 1)) 0%N ret.

(** [_mergeTrackPoints(existingTrackPoints, newTrackPoints)], lines
    563-577. [existingTrackPoints] is the indexed part of the object
    passed in ([None] for [null]); a [length] property it may carry is
    overwritten before it is read. *)
Definition _mergeTrackPoints (existingTrackPoints : option (gmap N TrackPoint.t))
    (newTrackPoints : list TrackPoint.t) : TrackPoints.t :=
  let ret := default ∅ existingTrackPoints in
  let ret := assignTrackPoints ret newTrackPoints in
  TrackPoints.mk ret (trackPointsLength ret).

(** The events pushed to the client and simulated by it. *)
Inductive Event : Type :=
| E_padData (data : PadData.t)
| E_deletePad
| E_marker (data : Marker.t)
| E_deleteMarker (id : ID)
| E_line (data : Line.t)
| E_deleteLine (id : ID)
| E_linePoints (id : ID) (trackPoints : list TrackPoint.t) (reset : bool)
| E_routePoints (trackPoints : list TrackPoint.t)
| E_routePointsWithId (routeId : string) (trackPoints : list TrackPoint.t)
| E_view (data : View.t)
| E_deleteView (id : ID)
| E_type (data : Type_.t)
| E_deleteType (id : ID)
| E_disconnect
| E_history (data : HistoryEntry.t)
| E_loadStart
| E_loadEnd
| E_other (eventName : string).

Definition N_eqb_opt (a : option N) (b : N) : bool :=
  match a with Some a => N.eqb a b | None => false end.

(** [_handlers], lines 205-333 (the [connect] handler, which issues
    requests of its own, is left out; events without a handler change
    nothing). *)
Definition _handlers (e : Event) (this : Client.t) : Client.t :=
  match e with
  | E_padData data =>
    let this := Client.set_padData (Some data) this in
    let this :=
      match PadData.writable data with
      | Some w =>
        Client.set_writable (Some w) (Client.set_readonly (Some (N.eqb w 0)) this)
      | None => this
      end in
    let id :=
      if N_eqb_opt (Client.writable this) 2 then PadData.adminId data
      else if N_eqb_opt (Client.writable this) 1 then PadData.writeId data
      else Some (PadData.id data) in
    match id with
    | Some id => Client.set_padId (Some id) this
    | None => this
    end
  | E_deletePad =>
    Client.set_deleted true
      (Client.set_writable (Some 0%N) (Client.set_readonly (Some true) this))
  | E_marker data =>
    Client.set_markers (<[Marker.id data := data]> (Client.markers this)) this
  | E_deleteMarker id =>
    Client.set_markers (delete id (Client.markers this)) this
  | E_line data =>
    Client.set_lines
      (<[Line.id data :=
           LineWithTrackPoints.mk data
             (match Client.lines this !! Line.id data with
              | Some l => LineWithTrackPoints.trackPoints l
              | None => TrackPoints.empty
              end)]> (Client.lines this)) this
  | E_deleteLine id =>
    Client.set_lines (delete id (Client.lines this)) this
  | E_linePoints id trackPoints reset =>
    match Client.lines this !! id with
    | None => this
    | Some line =>
      let merged :=
        _mergeTrackPoints
          (if reset then Some ∅
           else Some (TrackPoints.points (LineWithTrackPoints.trackPoints line)))
          trackPoints in
      Client.set_lines
        (<[id := LineWithTrackPoints.set_trackPoints merged line]> (Client.lines this)) this
    end
  | E_routePoints data =>
    match Client.route this with
    | None => this
    | Some route =>
      let merged :=
        _mergeTrackPoints
          (Some (TrackPoints.points (RouteWithTrackPoints.trackPoints route))) data in
      Client.set_route (Some (RouteWithTrackPoints.set_trackPoints merged route)) this
    end
  | E_routePointsWithId routeId trackPoints =>
    match Client.routes this !! routeId with
    | None => this
    | Some route =>
      let merged :=
        _mergeTrackPoints
          (Some (TrackPoints.points (RouteWithTrackPoints.trackPoints route)))
          trackPoints in
      Client.set_routes
        (<[routeId := RouteWithTrackPoints.set_trackPoints merged route]>
           (Client.routes this)) this
    end
  | E_view data =>
    Client.set_views (<[View.id data := data]> (Client.views this)) this
  | E_deleteView id =>
    let this := Client.set_views (delete id (Client.views this)) this in
    match Client.padData this with
    | Some padData =>
      if N_eqb_opt (PadData.defaultViewId padData) id
      then Client.set_padData (Some (PadData.set_defaultViewId None padData)) this
      else this
    | None => this
    end
  | E_type data =>
    Client.set_types (<[Type_.id data := data]> (Client.types this)) this
  | E_deleteType id =>
    Client.set_types (delete id (Client.types this)) this
  | E_disconnect =>
    Client.set_history ∅
      (Client.set_views ∅
        (Client.set_lines ∅
          (Client.set_markers ∅ (Client.set_disconnected true this))))
  | E_history data =>
    Client.set_history (<[HistoryEntry.id data := data]> (Client.history this)) this
  | E_loadStart => Client.set_loading (Client.loading this + 1)%Z this
  | E_loadEnd => Client.set_loading (Client.loading this - 1)%Z this
  | E_other _ => this
  end.

(** [_simulateEvent(eventName, data)]: runs the listeners of the event;
    the listener that acts on the client object is the handler. *)
Definition _simulateEvent (e : Event) (this : Client.t) : Client.t :=
  _handlers e this.

(** [_receiveMultiple(obj)]: every event of the answer, in order. *)
Definition _receiveMultiple (obj : option (list Event)) (this : Client.t) : Client.t :=
  match obj with
  | Some events => foldl (fun this e => _simulateEvent e this) this events
  | None => this
  end.

(** [_emit(eventName, data)], lines 182-203. [answer] is the pair
    [(err, data)] the server acknowledges the request with; the result is
    the rejection or the resolved value. *)
Definition _emit {A : Type} (eventName : string) (answer : option Err * A)
    (this : Client.t) : Client.t * (Err + A) :=
  let this := _simulateEvent E_loadStart this in
  let this := _simulateEvent (E_other "emit") this in
  let '(this, result) :=
    match answer with
    | (Some err, data) =>
      if truthy (Some err)
      then (_simulateEvent (E_other "emitReject") this, inl err)
      else (_simulateEvent (E_other "emitResolve") this, inr data)
    | (None, data) => (_simulateEvent (E_other "emitResolve") this, inr data)
    end in
  (_simulateEvent E_loadEnd this, result).

(** [updateBbox(bbox)], lines 342-346. The result is [Some err] when the
    returned promise is rejected with [err]. *)
Definition updateBbox (bbox : BboxWithZoom.t) (answer : option Err * option (list Event))
    (this : Client.t) : Client.t * option Err :=
  let this := Client.set_bbox (Some bbox) this in
  let '(this, obj) := _emit "updateBbox" answer this in
  match obj with
  | inl err => (this, Some err)
  | inr obj => (_receiveMultiple obj this, None)
  end.

(** A bbox the specification calls malformed: [left] or [right] outside
    [-180, 180], or [top < bottom]. *)
Definition malformedBbox (b : BboxWithZoom.t) : bool :=
  negb (validLon (BboxWithZoom.left b)) || negb (validLon (BboxWithZoom.right b))
  || Qlt_bool (BboxWithZoom.top b) (BboxWithZoom.bottom b).


(* ===================================================================== *)
(** ** Further queries on the points of a line *)
(* ===================================================================== *)

(** What [attributes: [ "lon", "lat", "idx" ]] keeps of a row. *)
Module PointWithIdx.
Record t : Type := mk { lon : Q; lat : Q; idx : N }.

Definition ofRow (p : LinePoint.t) : t :=
  mk (LinePoint.lon p) (LinePoint.lat p) (LinePoint.idx p).
End PointWithIdx.

(** [getLinePoints(lineId)], databaseBackendSequelize.js lines 499-501. *)
Definition getLinePoints (tbl : LinePoints) (lineId : ID) : list LinePoint.t :=
  Line_getLinePoints tbl lineId (W_obj []).

(** [getLinePointsByIdx(lineId, indexes)], lines 511-517:
    [where: { idx: indexes }] with an array is [idx IN (...)]. *)
Definition getLinePointsByIdx (tbl : LinePoints) (lineId : ID) (indexes : list N)
    : list PointWithIdx.t :=
  map PointWithIdx.ofRow
      (orderByIdx
         (Line_getLinePoints tbl lineId (W_obj [("idx", [in_list (map num indexes)])]))).

(** [DatabaseLines.getAllLinePoints(lineId)], lines 906-912. *)
Definition getAllLinePoints (tbl : LinePoints) (lineId : ID) : list TrackPoint.t :=
  map LinePoint.toTrackPoint (orderByIdx (Line_getLinePoints tbl lineId (W_obj []))).

(* ===================================================================== *)
(** ** The custom data of markers and lines *)
(* ===================================================================== *)

(** The [type] argument of the data helpers: ["Marker"] or ["Line"], the
    two models that have a data table ([MarkerData], [LineData]). *)
Inductive DataOwner : Type := OwnerMarker | OwnerLine.

(** A row of [MarkerData] or [LineData]: [name], [value] and the foreign
    key [markerId] resp. [lineId]. *)
Module DataRow.
Record t : Type := mk { name : string; value : string; ownerId : ID }.
End DataRow.

(** The two data tables, [conn.model(type + "Data")]. *)
Module DataTables.
Record t : Type := mk { MarkerData : list DataRow.t; LineData : list DataRow.t }.

Definition model (type : DataOwner) (db : t) : list DataRow.t :=
  match type with
  | OwnerMarker => MarkerData db
  | OwnerLine => LineData db
  end.

Definition set_model (type : DataOwner) (rows : list DataRow.t) (db : t) : t :=
  match type with
  | OwnerMarker => mk rows (LineData db)
  | OwnerLine => mk (MarkerData db) rows
  end.
End DataTables.

(** [_dataToArr(data, extend)], lines 367-372: one row per property of
    [data], each extended by the foreign key. The rows come in the order
    in which the properties of the object are enumerated. *)
Definition _dataToArr (data : gmap string string) (ownerId : ID) : list DataRow.t :=
  map (fun '(i, v) => DataRow.mk i v ownerId) (map_to_list data).

(** [_dataFromArr(dataArr)], lines 374-379. The object is read as the
    map from its own properties to their values; the name [__proto__],
    which an assignment does not store as a property, is not a name of
    a field here. *)
Definition _dataFromArr (dataArr : list DataRow.t) : gmap string string :=
  foldl (fun data row => <[DataRow.name row := DataRow.value row]> data) ∅ dataArr.

(** The rows of an object: [findAll({ where: { <type>Id: objId } })]. *)
Definition dataRowsOf (objId : ID) (rows : list DataRow.t) : list DataRow.t :=
  List.filter (fun row => N.eqb (DataRow.ownerId row) objId) rows.

(** [_getObjectData(type, objId)], lines 381-388. *)
Definition _getObjectData (type : DataOwner) (objId : ID) (db : DataTables.t)
    : gmap string string :=
  _dataFromArr (dataRowsOf objId (DataTables.model type db)).

(** [_setObjectData(type, objId, data)], lines 390-398:
    [model.destroy({ where: idObj })], then
    [model.bulkCreate(_dataToArr(data, idObj))]. *)
Definition _setObjectData (type : DataOwner) (objId : ID) (data : gmap string string)
    (db : DataTables.t) : DataTables.t :=
  let model := DataTables.model type db in
  let model := List.filter (fun row => negb (N.eqb (DataRow.ownerId row) objId)) model in
  let model := (model ++ _dataToArr data objId)%list in
  DataTables.set_model type model db.

(* ===================================================================== *)
(** ** Markers *)
(* ===================================================================== *)

(** A row of the Markers table. *)
Module MarkerRow.
Record t : Type := mk {
  id : ID;
  padId : string;
  lat : Q; lon : Q;
  name : option string;
  colour : string;
  typeId : ID
}.

(** The row seen by a [where] object. *)
Definition col (m : t) (key : string) : option Q :=
  if String.eqb key "lat" then Some (lat m)
  else if String.eqb key "lon" then Some (lon m)
  else if String.eqb key "id" then Some (num (id m))
  else if String.eqb key "typeId" then Some (num (typeId m))
  else None.
End MarkerRow.

(** The outcome of a promise of the backend that can fail on a [null]
    object. *)
Inductive Promised (A : Type) : Type :=
| Fulfilled (value : A)
| RejectedTypeError.
Arguments Fulfilled {A} value.
Arguments RejectedTypeError {A}.

Section PadObjects.
Context {Row : Type} (rowId : Row -> ID).

(** [_deletePadObject(type, objId)], lines 353-359, on the table of the
    model [type]: [findById(objId)], then [obj.destroy()] on what was
    found, which is [null] for an unknown id. *)
Definition _deletePadObject (objId : ID) (tbl : list Row)
    : list Row * Promised Row :=
  match List.find (fun row => N.eqb (rowId row) objId) tbl with
  | Some obj =>
    (List.filter (fun row => negb (N.eqb (rowId row) objId)) tbl, Fulfilled obj)
  | None => (tbl, RejectedTypeError)
  end.

End PadObjects.

Module Backend.

(** [getPadMarkers(padId, bbox)], lines 445-447, through
    [_getPadObjects("Marker", padId, condition)], lines 294-311: the
    markers of the pad that the bbox condition matches, each with its
    [data] put together from its [MarkerData] rows. *)
Definition getPadMarkers (markers : list MarkerRow.t) (db : DataTables.t)
    (padId : string) (bbox : option BboxWithZoom.t)
    : list (MarkerRow.t * gmap string string) :=
  let objs :=
    List.filter (fun m => String.eqb (MarkerRow.padId m) padId
                          && evalWhere (MarkerRow.col m) (_makeBboxCondition bbox None))
                markers in
  map (fun it =>
         (it, _dataFromArr (dataRowsOf (MarkerRow.id it) (DataTables.MarkerData db))))
      objs.

(** [deleteMarker(markerId)], lines 461-463, that is
    [_deletePadObjectWithData("Marker", markerId)], lines 361-365: the
    data rows go first, then the marker. *)
Definition deleteMarker (markerId : ID)
    (markers : list MarkerRow.t) (db : DataTables.t)
    : list MarkerRow.t * DataTables.t * Promised MarkerRow.t :=
  let db := _setObjectData OwnerMarker markerId ∅ db in
  let '(markers, result) := _deletePadObject MarkerRow.id markerId markers in
  (markers, db, result).

End Backend.

(* ===================================================================== *)
(** ** Pads *)
(* ===================================================================== *)

(** A row of the Views table. *)
Module ViewRow.
Record t : Type := mk {
  id : ID;
  padId : string;
  name : string;
  baseLayer : string;
  layers : string;
  top : Q; bottom : Q; left : Q; right : Q
}.
End ViewRow.

(** A row of the Pads table. *)
Module PadRow.
Record t : Type := mk {
  id : string;
  name : option string;
  writeId : string;
  defaultViewId : option ID
}.
End PadRow.

Module Pads.

(** [include: [ { model: View, as: "defaultView" } ]] *)
Definition withDefaultView (views : list ViewRow.t) (pad : PadRow.t)
    : PadRow.t * option ViewRow.t :=
  (pad,
   match PadRow.defaultViewId pad with
   | Some v => List.find (fun view => N.eqb (ViewRow.id view) v) views
   | None => None
   end).

(** [padIdExists(padId)], lines 270-274. *)
Definition padIdExists (pads : list PadRow.t) (padId : string) : bool :=
  let num :=
    length (List.filter (fun p => String.eqb (PadRow.id p) padId
                                  || String.eqb (PadRow.writeId p) padId) pads) in
  Nat.ltb 0 num.

(** [getPadData(padId)], lines 276-278. *)
Definition getPadData (pads : list PadRow.t) (views : list ViewRow.t)
    (padId : string) : option (PadRow.t * option ViewRow.t) :=
  withDefaultView views <$> List.find (fun p => String.eqb (PadRow.id p) padId) pads.

(** [getPadDataByWriteId(writeId)], lines 280-282. *)
Definition getPadDataByWriteId (pads : list PadRow.t) (views : list ViewRow.t)
    (writeId : string) : option (PadRow.t * option ViewRow.t) :=
  withDefaultView views <$> List.find (fun p => String.eqb (PadRow.writeId p) writeId) pads.

End Pads.

(* ===================================================================== *)
(** ** Further requests of the client *)
(* ===================================================================== *)

(** A route as the server returns it. *)
Module Route.
Record t : Type := mk {
  routeId : option string;
  trackPoints : list TrackPoint.t;
  other : list (string * string)
}.
End Route.

(** The request data of [setRoute] and [lineToRoute]; the client reads
    its [routeId]. *)
Module RouteCreate.
Record t : Type := mk { routeId : option string; other : list (string * string) }.
End RouteCreate.

Module RouteClear.
Record t : Type := mk { routeId : option string }.
End RouteClear.

(** How the promise of a client call settles: resolved with a value,
    rejected with the error of the server, or rejected with the
    TypeError of reading a property of [undefined]. *)
Inductive Settled (A : Type) : Type :=
| Resolved (value : A)
| Rejected (err : Err)
| RejectedWithTypeError.
Arguments Resolved {A} value.
Arguments Rejected {A} err.
Arguments RejectedWithTypeError {A}.

(** The body shared by [getMarker], lines 388-392, and [addMarker], lines
    394-399: [const marker = await this._emit(name, data);
    this._set(this.markers, marker.id, marker); return marker;] *)
Definition emitAndStoreMarker (eventName : string)
    (answer : option Err * option Marker.t) (this : Client.t)
    : Client.t * Settled Marker.t :=
  let '(this, marker) := _emit eventName answer this in
  match marker with
  | inl err => (this, Rejected err)
  | inr None => (this, RejectedWithTypeError)
  | inr (Some marker) =>
    (Client.set_markers (<[Marker.id marker := marker]> (Client.markers this)) this,
     Resolved marker)
  end.

Definition getMarker := emitAndStoreMarker "getMarker".
Definition addMarker := emitAndStoreMarker "addMarker".

(** [createPad(data)], lines 356-361. *)
Definition createPad (answer : option Err * option (list Event)) (this : Client.t)
    : Client.t * option Err :=
  let '(this, obj) := _emit "createPad" answer this in
  match obj with
  | inl err => (this, Some err)
  | inr obj =>
    let this := Client.set_readonly (Some false) this in
    let this := Client.set_writable (Some 2%N) this in
    (_receiveMultiple obj this, None)
  end.

(** [revertHistoryEntry(data)], lines 382-386. *)
Definition revertHistoryEntry (answer : option Err * option (list Event))
    (this : Client.t) : Client.t * option Err :=
  let '(this, obj) := _emit "revertHistoryEntry" answer this in
  match obj with
  | inl err => (this, Some err)
  | inr obj =>
    let this := Client.set_history ∅ this in
    (_receiveMultiple obj this, None)
  end.

(** The body shared by [setRoute], lines 443-461, and [lineToRoute],
    lines 475-493. *)
Definition emitAndStoreRoute (eventName : string) (data : RouteCreate.t)
    (answer : option Err * option Route.t) (this : Client.t)
    : Client.t * Settled (option RouteWithTrackPoints.t) :=
  let '(this, route) := _emit eventName answer this in
  match route with
  | inl err => (this, Rejected err)
  | inr None => (this, Resolved None)
  | inr (Some route) =>
    let result :=
      RouteWithTrackPoints.mk (Route.routeId route)
        (_mergeTrackPoints (Some ∅) (Route.trackPoints route)) (Route.other route) in
    let this :=
      match RouteCreate.routeId data with
      | Some routeId =>
        if truthy (Some routeId)
        then Client.set_routes (<[routeId := result]> (Client.routes this)) this
        else Client.set_route (Some result) this
      | None => Client.set_route (Some result) this
      end in
    let this := _simulateEvent (E_other "route") this in
    (this, Resolved (Some result))
  end.

Definition setRoute := emitAndStoreRoute "setRoute".
Definition lineToRoute := emitAndStoreRoute "lineToRoute".

(** What [data?.routeId] is when it is truthy. *)
Definition truthyRouteId (data : option RouteClear.t) : option string :=
  match data with
  | Some data =>
    match RouteClear.routeId data with
    | Some routeId => if truthy (Some routeId) then Some routeId else None
    | None => None
    end
  | None => None
  end.

(** [clearRoute(data)], lines 463-473. The second component is [None]
    when the call returns without sending a request, and the settlement
    of the request otherwise. *)
Definition clearRoute (data : option RouteClear.t) (answer : option Err * unit)
    (this : Client.t) : Client.t * option (Err + unit) :=
  match truthyRouteId data with
  | Some routeId =>
    let this := Client.set_routes (delete routeId (Client.routes this)) this in
    let this := _simulateEvent (E_other "clearRoute") this in
    let '(this, r) := _emit "clearRoute" answer this in
    (this, Some r)
  | None =>
    match Client.route this with
    | Some _ =>
      let this := Client.set_route None this in
      let this := _simulateEvent (E_other "clearRoute") this in
      let '(this, r) := _emit "clearRoute" answer this in
      (this, Some r)
    | None => (this, None)
    end
  end.

(** [readonly] says what [writable] says: [readonly == (writable == 0)]
    whenever one of them is set. *)
Definition readonlyMatchesWritable (this : Client.t) : Prop :=
  Client.readonly this = (fun w => N.eqb w 0) <$> Client.writable this.

(** The events that count the loads in progress: their handlers add to
    and subtract from [loading], so that receiving one of them twice
    differs from receiving it once. *)
Definition isLoadEvent (e : Event) : bool :=
  match e with E_loadStart | E_loadEnd => true | _ => false end.

(* ===================================================================== *)
(** ** frontend.ts: the scripts of an entry point *)
(* ===================================================================== *)

(** A chunk of the Vite manifest. *)
Module ManifestChunk.
Record t : Type := mk {
  file : string;
  imports : option (list string);
  dynamicImports : option (list string);
  css : option (list string)
}.

(** [[...chunk.imports ?? [], ...chunk.dynamicImports ?? []]] *)
Definition references (chunk : t) : list string :=
  (default [] (imports chunk) ++ default [] (dynamicImports chunk))%list.
End ManifestChunk.

Module Scripts.
Record t : Type := mk {
  scripts : list string;
  preloadScripts : list string;
  styles : list string
}.
End Scripts.

(** How [getScripts] ends: with a value, with the TypeError of reading a
    property of a chunk that the manifest does not have, or, in the
    model only, by running out of fuel. *)
Inductive Outcome (A : Type) : Type :=
| Done (value : A)
| ChunkTypeError
| OutOfFuel.
Arguments Done {A} value.
Arguments ChunkTypeError {A}.
Arguments OutOfFuel {A}.

(** [referencedChunks.includes(reference)] *)
Definition includes (referencedChunks : list string) (reference : string) : bool :=
  existsb (String.eqb reference) referencedChunks.

(** The inner loop of [getScripts]: every reference that is not yet
    included is pushed. *)
Definition pushReferences (referencedChunks references : list string) : list string :=
  foldl (fun referencedChunks reference =>
           if includes referencedChunks reference then referencedChunks
           else (referencedChunks ++ [reference])%list)
        referencedChunks references.

(** The outer loop, [for (let i = 0; i < referencedChunks.length; i++)],
    over the array that grows while it is traversed. *)
Fixpoint collectChunks (fuel : nat) (manifest : gmap string ManifestChunk.t)
    (i : nat) (referencedChunks : list string) : Outcome (list string) :=
  match referencedChunks !! i with
  | None => Done referencedChunks
  | Some name =>
    match fuel with
    | O => OutOfFuel
    | S fuel =>
      match manifest !! name with
      | None => ChunkTypeError
      | Some chunk =>
        collectChunks fuel manifest (S i)
          (pushReferences referencedChunks (ManifestChunk.references chunk))
      end
    end
  end.

(** [referencedChunks.map((c) => manifest[c])] *)
Fixpoint lookupChunks (manifest : gmap string ManifestChunk.t) (names : list string)
    : Outcome (list ManifestChunk.t) :=
  match names with
  | [] => Done []
  | name :: names =>
    match manifest !! name with
    | None => ChunkTypeError
    | Some chunk =>
      match lookupChunks manifest names with
      | Done chunks => Done (chunk :: chunks)
      | ChunkTypeError => ChunkTypeError
      | OutOfFuel => OutOfFuel
      end
    end
  end.

(** [getScripts(entry)], frontend.ts lines 28-61. [entryPath] is
    [paths[entry]] and [manifest] the parsed manifest file, a JSON object
    read as the map from its own keys to its chunks: chunk names are
    paths of files, never names of properties that every object
    inherits. *)
Definition getScripts (isDevMode : bool) (entryPath : string)
    (manifest : gmap string ManifestChunk.t) : Outcome Scripts.t :=
  if isDevMode then
    Done (Scripts.mk ["@vite/client"; entryPath] [] [])
  else
    match collectChunks (S (size manifest)) manifest 0 [entryPath] with
    | Done referencedChunks =>
      match lookupChunks manifest referencedChunks with
      | Done chunks =>
        let scripts := map ManifestChunk.file chunks in
        let styles := map (fun c => default [] (ManifestChunk.css c)) chunks in
        Done (Scripts.mk (take 1 scripts) (drop 1 scripts) (concat styles))
      | ChunkTypeError => ChunkTypeError
      | OutOfFuel => OutOfFuel
      end
    | ChunkTypeError => ChunkTypeError
    | OutOfFuel => OutOfFuel
    end.

(** [name] is referenced by the chunk [from] of the manifest. *)
Definition referencedBy (manifest : gmap string ManifestChunk.t)
    (from name : string) : Prop :=
  exists chunk, manifest !! from = Some chunk /\ In name (ManifestChunk.references chunk).

(** [name] is the entry or is referenced, directly or through other
    chunks, from the entry. *)
Definition reachableFrom (manifest : gmap string ManifestChunk.t)
    (entry name : string) : Prop :=
  rtc (referencedBy manifest) entry name.

(** What the outer loop of [getScripts] keeps true when it is at index
    [i]: the array holds no chunk twice, starts with the entry, holds
    chunks reachable from the entry only, and holds every reference of
    the chunks before [i], which the manifest all has. *)
Definition collectInvariant (manifest : gmap string ManifestChunk.t)
    (entry : string) (i : nat) (referencedChunks : list string) : Prop :=
  NoDup referencedChunks /\
  referencedChunks !! 0%nat = Some entry /\
  (forall name, In name referencedChunks -> reachableFrom manifest entry name) /\
  (forall j name, (j < i)%nat -> referencedChunks !! j = Some name ->
     exists chunk, manifest !! name = Some chunk /\
       forall r, In r (ManifestChunk.references chunk) -> In r referencedChunks) /\
  (i <= length referencedChunks)%nat.
(* ===================================================================== *)
(** * Properties *)
(* ===================================================================== *)

(** *** Comparisons and conditions *)

Lemma Qlt_bool_iff a b : Qlt_bool a b = true <-> (a < b)%Q.
Proof.
  unfold Qlt_bool. rewrite Qlt_alt. destruct (a ?= b)%Q; split; congruence.
Qed.

Lemma Qlt_bool_negb a b : Qlt_bool a b = negb (Qle_bool b a).
Proof.
  destruct (Qle_bool b a) eqn:H; simpl.
  - apply Qle_bool_iff in H. destruct (Qlt_bool a b) eqn:H'; [|done].
    apply Qlt_bool_iff in H'. lra.
  - apply Qlt_bool_iff. destruct (Qlt_le_dec a b) as [?|H']; [done|].
    apply Qle_bool_iff in H'. congruence.
Qed.

Lemma num_eq a b : Qeq_bool (num a) (num b) = true <-> a = b.
Proof.
  rewrite Qeq_bool_iff. unfold num. rewrite inject_Z_injective. lia.
Qed.

Lemma num_le a b : Qle_bool (num a) (num b) = true <-> (a <= b)%N.
Proof.
  rewrite Qle_bool_iff. unfold num. rewrite <- Zle_Qle. lia.
Qed.

(** Evaluates a [where] object built by [cond] with the empty prefix on
    a row. *)
Ltac eval_where :=
  repeat (progress (cbn;
    repeat match goal with
           | |- context [String.app "" ?s] => change (String.app "" s) with s
           end));
  rewrite ?andb_true_r, ?orb_false_r.

(** The inclusion test, written out. *)
Lemma inBbox_eq b lat lon :
  inBbox b lat lon =
  (Qle_bool lat (Bbox.top b) && Qle_bool (Bbox.bottom b) lat) &&
  (if Qlt_bool (Bbox.right b) (Bbox.left b)
   then Qle_bool (Bbox.left b) lon || Qle_bool lon (Bbox.right b)
   else Qle_bool (Bbox.left b) lon && Qle_bool lon (Bbox.right b)).
Proof.
  destruct b as [t bo l r]. unfold inBbox, _makeBboxCondition.
  eval_where. destruct (Qlt_bool r l); eval_where; reflexivity.
Qed.

(** The condition built for a row only looks at its position. *)
Lemma makeBboxCondition_plain b z p :
  evalWhere (LinePoint.col p)
    (_makeBboxCondition (Some (BboxWithZoom.make b z None)) None)
  = inBbox b (LinePoint.lat p) (LinePoint.lon p).
Proof.
  destruct b as [t bo l r]. unfold inBbox, _makeBboxCondition.
  eval_where. destruct (Qlt_bool r l); eval_where; reflexivity.
Qed.

(** With [except], the condition is the inclusion test of the bbox
    together with the negated inclusion test of the excepted bbox. *)
Lemma makeBboxCondition_except b z e p :
  evalWhere (LinePoint.col p)
    (_makeBboxCondition (Some (BboxWithZoom.make b z (Some e))) None)
  = inBbox b (LinePoint.lat p) (LinePoint.lon p)
    && negb (inBbox e (LinePoint.lat p) (LinePoint.lon p)).
Proof.
  rewrite !inBbox_eq.
  destruct b as [t bo l r], e as [et eb el er]. unfold _makeBboxCondition.
  eval_where.
  destruct (Qlt_bool r l), (Qlt_bool er el); eval_where;
    rewrite !Qlt_bool_negb;
    destruct (Qle_bool (LinePoint.lat p) t), (Qle_bool bo (LinePoint.lat p)),
      (Qle_bool l (LinePoint.lon p)), (Qle_bool (LinePoint.lon p) r),
      (Qle_bool (LinePoint.lat p) et), (Qle_bool eb (LinePoint.lat p)),
      (Qle_bool el (LinePoint.lon p)), (Qle_bool (LinePoint.lon p) er); reflexivity.
Qed.

(** *** Membership in query results *)

Lemma findAll_In tbl w p :
  In p (findAll tbl w) <-> In p tbl /\ evalWhere (LinePoint.col p) w = true.
Proof. unfold findAll. apply filter_In. Qed.

Lemma orderByIdx_Permutation rows : Permutation (orderByIdx rows) rows.
Proof. apply merge_sort_Permutation. Qed.

Lemma orderByIdx_In rows p : In p (orderByIdx rows) <-> In p rows.
Proof.
  split; apply Permutation_in; [|symmetry]; apply orderByIdx_Permutation.
Qed.

Global Instance idx_le_total : Total idx_le.
Proof. intros p q. unfold idx_le. lia. Qed.

Global Instance idx_le_trans : Transitive idx_le.
Proof. intros p q r. unfold idx_le. lia. Qed.

Lemma orderByIdx_sorted rows :
  StronglySorted N.le (map LinePoint.idx (orderByIdx rows)).
Proof.
  unfold orderByIdx.
  pose proof (StronglySorted_merge_sort idx_le rows) as H.
  induction H as [|p l _ IH Hall]; simpl; constructor; [done|].
  apply Forall_forall. intros i Hi.
  apply list_elem_of_In, in_map_iff in Hi as (q & <- & Hq).
  rewrite Forall_forall in Hall. apply Hall. by apply list_elem_of_In.
Qed.

(** The row filter of [getLinePointsByBbox], as a boolean. *)
Lemma getLinePointsByBbox_where_eval p lineId b :
  evalWhere (LinePoint.col p)
    (W_and [ W_obj [("lineId", [eq_to (num lineId)])];
             getLinePointsByBbox_where (Some b) ])
  = Qeq_bool (num (LinePoint.lineId p)) (num lineId)
    && (evalWhere (LinePoint.col p) (_makeBboxCondition (Some b) None)
        && Qle_bool (num (LinePoint.zoom p)) (num (BboxWithZoom.zoom b))).
Proof.
  unfold getLinePointsByBbox_where.
  cbn -[_makeBboxCondition]. by rewrite !andb_true_r.
Qed.

Lemma getLinePointsByBbox_rows_In tbl lineId b p :
  In p (getLinePointsByBbox_rows tbl lineId (Some b)) <->
  In p tbl /\ LinePoint.lineId p = lineId /\
  (LinePoint.zoom p <= BboxWithZoom.zoom b)%N /\
  evalWhere (LinePoint.col p) (_makeBboxCondition (Some b) None) = true.
Proof.
  unfold getLinePointsByBbox_rows, Line_getLinePoints.
  rewrite orderByIdx_In, findAll_In, getLinePointsByBbox_where_eval.
  rewrite !andb_true_iff, num_eq, num_le. tauto.
Qed.

Lemma getLinePointsByBbox_In tbl lineId b i :
  In i (getLinePointsByBbox tbl lineId b) <->
  exists p, In p (getLinePointsByBbox_rows tbl lineId b) /\ LinePoint.idx p = i.
Proof.
  unfold getLinePointsByBbox. rewrite in_map_iff. firstorder.
Qed.

(** *** Bounding boxes as regions *)

Lemma inBbox_spec b lat lon :
  inBbox b lat lon = true <->
  (Bbox.bottom b <= lat /\ lat <= Bbox.top b)%Q /\
  (if Qlt_bool (Bbox.right b) (Bbox.left b)
   then (Bbox.left b <= lon \/ lon <= Bbox.right b)%Q
   else (Bbox.left b <= lon /\ lon <= Bbox.right b)%Q).
Proof.
  rewrite inBbox_eq. destruct (Qlt_bool (Bbox.right b) (Bbox.left b));
    rewrite ?andb_true_iff, ?orb_true_iff, !Qle_bool_iff; tauto.
Qed.

Lemma validLat_spec lat : validLat lat = true <-> (-90 <= lat /\ lat <= 90)%Q.
Proof. unfold validLat. by rewrite andb_true_iff, !Qle_bool_iff. Qed.

Lemma validLon_spec lon : validLon lon = true <-> (-180 <= lon /\ lon <= 180)%Q.
Proof. unfold validLon. by rewrite andb_true_iff, !Qle_bool_iff. Qed.

(** The test on the sides is sound for containment of regions. *)
Lemma bboxWithin_sound b1 b2 : bboxWithin b1 b2 = true -> bboxContained b1 b2.
Proof.
  unfold bboxWithin, bboxContained. intros H lat lon _ Hlon.
  apply validLon_spec in Hlon.
  rewrite !inBbox_spec.
  destruct (Qlt_bool (Bbox.right b1) (Bbox.left b1)) eqn:W1,
           (Qlt_bool (Bbox.right b2) (Bbox.left b2)) eqn:W2;
    rewrite ?andb_true_iff, ?orb_true_iff, !Qle_bool_iff in H;
    try (apply Qlt_bool_iff in W1); try (apply Qlt_bool_iff in W2);
    intros [[? ?] ?]; (split; [lra|]); lra.
Qed.

(** Every bbox lies within itself. *)
Lemma bboxContained_refl b : bboxContained b b.
Proof. by intros lat lon _ _. Qed.

Lemma bboxContained_trans b1 b2 b3 :
  bboxContained b1 b2 -> bboxContained b2 b3 -> bboxContained b1 b3.
Proof. intros H12 H23 lat lon ? ? ?. apply H23, H12; done. Qed.

(** C3. For every point and every bbox with [right < left], the inclusion
    test built by [_makeBboxCondition] matches the point iff its latitude
    lies in [[bottom, top]] and its longitude is at least [left] or at
    most [right]. In particular the bbox with [left = 170] and
    [right = -170] matches longitude 179 and longitude -179 at every
    latitude of its band, and never matches longitude 0. *)
Theorem antimeridian_bbox_matches :
  (forall (b : Bbox.t) (z : N) (p : LinePoint.t),
     (Bbox.right b < Bbox.left b)%Q ->
     evalWhere (LinePoint.col p)
       (_makeBboxCondition (Some (BboxWithZoom.make b z None)) None) = true <->
     (Bbox.bottom b <= LinePoint.lat p /\ LinePoint.lat p <= Bbox.top b)%Q /\
     (Bbox.left b <= LinePoint.lon p \/ LinePoint.lon p <= Bbox.right b)%Q) /\
  (forall top bottom lat : Q,
     (bottom <= lat /\ lat <= top)%Q ->
     inBbox (Bbox.mk top bottom 170 (-170)) lat 179 = true /\
     inBbox (Bbox.mk top bottom 170 (-170)) lat (-179) = true) /\
  (forall top bottom lat : Q,
     inBbox (Bbox.mk top bottom 170 (-170)) lat 0 = false).
Proof.
  split; [|split].
  - intros b z p Hwrap. rewrite makeBboxCondition_plain, inBbox_spec.
    apply Qlt_bool_iff in Hwrap. by rewrite Hwrap.
  - intros top bottom lat Hlat. rewrite !inBbox_spec.
    cbn [Bbox.top Bbox.bottom Bbox.left Bbox.right].
    change (Qlt_bool (-170) 170) with true. cbv iota.
    split; (split; [done|lra]).
  - intros top bottom lat. apply not_true_is_false. rewrite inBbox_spec.
    cbn [Bbox.top Bbox.bottom Bbox.left Bbox.right].
    change (Qlt_bool (-170) 170) with true. cbv iota. lra.
Qed.

(** The antimeridian bbox of C3 on a stored point. *)
Lemma antimeridian_bbox_matches_witness :
  let b := Bbox.mk 10 (-10) 170 (-170) in
  let p := LinePoint.mk 1 5 179 1 0 None in
  (Bbox.right b < Bbox.left b)%Q /\
  (evalWhere (LinePoint.col p)
     (_makeBboxCondition (Some (BboxWithZoom.make b 12 None)) None) = true <->
   (Bbox.bottom b <= LinePoint.lat p /\ LinePoint.lat p <= Bbox.top b)%Q /\
   (Bbox.left b <= LinePoint.lon p \/ LinePoint.lon p <= Bbox.right b)%Q).
Proof.
  intros b p.
  assert (Hwrap : (Bbox.right b < Bbox.left b)%Q) by (vm_compute; reflexivity).
  split; [exact Hwrap|].
  exact (proj1 antimeridian_bbox_matches b 12%N p Hwrap).
Defined.

(** *** Monotonicity and differential fills *)



(** C1. Differential fill. For every table, line, zoom and bboxes [old]
    within [new] (the stored points of the line satisfying the column
    validators): what the query over [new] with [except = old] returns,
    together with what the query over [old] returns, is what the query
    over [new] without [except] returns, on rows and on the returned
    point indexes; and no row selected by the [except] query lies inside
    [old]. *)
Theorem except_query_complements_old :
  forall (tbl : LinePoints) (lineId : ID) (z : N) (old new : Bbox.t),
    (forall p, In p tbl -> LinePoint.lineId p = lineId -> validRow p) ->
    bboxContained old new ->
    (forall p,
       In p (getLinePointsByBbox_rows tbl lineId (Some (BboxWithZoom.make new z (Some old)))) \/
       In p (getLinePointsByBbox_rows tbl lineId (Some (BboxWithZoom.make old z None))) <->
       In p (getLinePointsByBbox_rows tbl lineId (Some (BboxWithZoom.make new z None)))) /\
    (forall i,
       In i (getLinePointsByBbox tbl lineId (Some (BboxWithZoom.make new z (Some old)))) \/
       In i (getLinePointsByBbox tbl lineId (Some (BboxWithZoom.make old z None))) <->
       In i (getLinePointsByBbox tbl lineId (Some (BboxWithZoom.make new z None)))) /\
    (forall p,
       In p (getLinePointsByBbox_rows tbl lineId (Some (BboxWithZoom.make new z (Some old)))) ->
       inBbox old (LinePoint.lat p) (LinePoint.lon p) = false).
Proof.
  intros tbl lineId z old new Hvalid Hsub.
  assert (Hrows : forall p,
    In p (getLinePointsByBbox_rows tbl lineId (Some (BboxWithZoom.make new z (Some old)))) \/
    In p (getLinePointsByBbox_rows tbl lineId (Some (BboxWithZoom.make old z None))) <->
    In p (getLinePointsByBbox_rows tbl lineId (Some (BboxWithZoom.make new z None)))).
  { intros p. rewrite !getLinePointsByBbox_rows_In.
    rewrite makeBboxCondition_except, !makeBboxCondition_plain, andb_true_iff, negb_true_iff.
    cbn [BboxWithZoom.zoom BboxWithZoom.make].
    split.
    - intros [(Hin & Hid & Hz & Hnew & _)|(Hin & Hid & Hz & Hold)]; [done|].
      repeat split; try done. destruct (Hvalid p Hin Hid). by apply Hsub.
    - intros (Hin & Hid & Hz & Hnew).
      destruct (inBbox old (LinePoint.lat p) (LinePoint.lon p)) eqn:Hold.
      + by right.
      + by left. }
  split; [exact Hrows|split].
  - intros i. rewrite !getLinePointsByBbox_In. split.
    + intros [(p & Hp & <-)|(p & Hp & <-)]; exists p; split; try done;
        apply Hrows; auto.
    + intros (p & Hp & <-). apply Hrows in Hp as [Hp|Hp]; eauto.
  - intros p. rewrite getLinePointsByBbox_rows_In, makeBboxCondition_except.
    rewrite andb_true_iff, negb_true_iff. tauto.
Qed.

Lemma except_query_complements_old_witness :
  let tbl := [ LinePoint.mk 1 5 5 1 0 None; LinePoint.mk 1 5 15 1 1 None;
               LinePoint.mk 1 5 25 1 2 None; LinePoint.mk 2 5 15 1 0 None ] in
  let old := Bbox.mk 10 0 0 10 in
  let new := Bbox.mk 10 0 0 20 in
  bboxWithin old new = true /\
  (forall i,
     In i (getLinePointsByBbox tbl 1 (Some (BboxWithZoom.make new 5 (Some old)))) \/
     In i (getLinePointsByBbox tbl 1 (Some (BboxWithZoom.make old 5 None))) <->
     In i (getLinePointsByBbox tbl 1 (Some (BboxWithZoom.make new 5 None)))).
Proof.
  intros tbl old new.
  assert (Hwithin : bboxWithin old new = true) by (vm_compute; reflexivity).
  split; [exact Hwithin|].
  refine (proj1 (proj2 (except_query_complements_old tbl 1%N 5%N old new _
                          (bboxWithin_sound _ _ Hwithin)))).
  intros p Hp _. unfold validRow.
  destruct Hp as [<-|[<-|[<-|[<-|[]]]]]; split; vm_compute; reflexivity.
Defined.

(** The three queries of the example above, evaluated. *)
Example except_query_example :
  let tbl := [ LinePoint.mk 1 5 5 1 0 None; LinePoint.mk 1 5 15 1 1 None;
               LinePoint.mk 1 5 25 1 2 None; LinePoint.mk 2 5 15 1 0 None ] in
  let old := Bbox.mk 10 0 0 10 in
  let new := Bbox.mk 10 0 0 20 in
  getLinePointsByBbox tbl 1 (Some (BboxWithZoom.make new 5 (Some old))) = [1%N] /\
  getLinePointsByBbox tbl 1 (Some (BboxWithZoom.make old 5 None)) = [0%N] /\
  getLinePointsByBbox tbl 1 (Some (BboxWithZoom.make new 5 None)) = [0%N; 1%N].
Proof. vm_compute. repeat split. Qed.

(** *** Batches, groups and entries *)

Lemma batch_aux_concat {A : Type} (n : nat) (fuel : nat) (l : list A) :
  0 < n -> length l <= fuel -> concat (batch_aux fuel n l) = l.
Proof.
  intros Hn. revert l. induction fuel as [|fuel IH]; intros l Hlen.
  - destruct l; [done|simpl in Hlen; lia].
  - destruct l as [|x l]; [done|].
    cbn [batch_aux concat]. rewrite IH.
    + apply take_drop.
    + rewrite length_drop. simpl in *. lia.
Qed.

(** With a positive batch size the pieces of [batch], put together again,
    are the list: the fuel suffices and no element is lost. *)
Lemma batch_concat {A : Type} (n : nat) (l : list A) :
  0 < n -> concat (batch n l) = l.
Proof. intros Hn. by apply batch_aux_concat. Qed.

Lemma batch_In {A : Type} (n : nat) (l : list A) (x : A) :
  0 < n -> (In x l <-> exists b, In b (batch n l) /\ In x b).
Proof.
  intros Hn. rewrite <- (batch_concat n l Hn) at 1. rewrite in_concat. done.
Qed.

Lemma filter_snoc {A : Type} (f : A -> bool) (l : list A) (x : A) :
  List.filter f (l ++ [x]) = (List.filter f l ++ if f x then [x] else [])%list.
Proof. rewrite List.filter_app. simpl. by destruct (f x). Qed.

(** Property [k] of [groupBy] holds the elements with key [k], in their
    order; keys without element are no property. *)
Lemma groupBy_lookup {A : Type} (key : A -> N) (l : list A) (k : N) :
  groupBy key l !! k =
  match List.filter (fun x => N.eqb (key x) k) l with
  | [] => None
  | g => Some g
  end.
Proof.
  unfold groupBy. induction l as [|x l IH] using rev_ind; [done|].
  rewrite foldl_snoc, filter_snoc.
  destruct (N.eqb_spec (key x) k) as [->|Hne].
  - rewrite lookup_insert_eq, IH.
    by destruct (List.filter (fun x => N.eqb (key x) k) l).
  - rewrite lookup_insert_ne, IH, app_nil_r; done.
Qed.

Lemma Object_entries_In {A : Type} (obj : gmap N A) (k : N) (v : A) :
  In (k, v) (Object_entries obj) <-> obj !! k = Some v.
Proof.
  unfold Object_entries. rewrite <- elem_of_map_to_list, <- !list_elem_of_In.
  by rewrite merge_sort_Permutation.
Qed.

Global Instance key_le_total {A : Type} : Total (@key_le A).
Proof. intros a b. unfold key_le. lia. Qed.

Global Instance key_le_trans {A : Type} : Transitive (@key_le A).
Proof. intros a b c. unfold key_le. lia. Qed.

(** The entries come in ascending key order, each key once. *)
Lemma Object_entries_keys_sorted {A : Type} (obj : gmap N A) :
  StronglySorted N.lt (map fst (Object_entries obj)).
Proof.
  unfold Object_entries.
  pose proof (StronglySorted_merge_sort (@key_le A) (map_to_list obj)) as Hs.
  pose proof (NoDup_fst_map_to_list obj) as Hnd.
  rewrite <- (merge_sort_Permutation (@key_le A) (map_to_list obj)) in Hnd.
  induction Hs as [|a l _ IH Hall]; simpl; constructor.
  - apply IH. by inversion Hnd.
  - apply Forall_forall. intros i Hi.
    apply list_elem_of_In, in_map_iff in Hi as (q & <- & Hq).
    rewrite Forall_forall in Hall. specialize (Hall q).
    unfold key_le in Hall.
    assert (a.1 <> q.1).
    { intros Heq. inversion Hnd as [|? ? Hnotin _]; subst. apply Hnotin.
      rewrite Heq. apply list_elem_of_fmap. exists q. split; [done|].
      by apply list_elem_of_In. }
    assert (a.1 ≤ q.1)%N by (apply Hall; by apply list_elem_of_In).
    lia.
Qed.

Lemma in_list_num x ids :
  existsb (Qeq_bool (num x)) (map num ids) = true <-> In x ids.
Proof.
  rewrite existsb_exists. split.
  - intros (q & Hq & Heq). apply in_map_iff in Hq as (y & <- & Hy).
    apply num_eq in Heq. by subst.
  - intros Hx. exists (num x). split; [by apply in_map|]. by apply num_eq.
Qed.

Lemma num_eqb a b : Qeq_bool (num a) (num b) = N.eqb a b.
Proof. apply eq_true_iff_eq. by rewrite num_eq, N.eqb_eq. Qed.

Lemma num_leb a b : Qle_bool (num a) (num b) = N.leb a b.
Proof. apply eq_true_iff_eq. by rewrite num_le, N.leb_le. Qed.

Lemma filter_filter_andb {A : Type} (f g : A -> bool) (l : list A) :
  List.filter f (List.filter g l) = List.filter (fun x => g x && f x) l.
Proof.
  induction l as [|x l IH]; [done|]. simpl.
  destruct (g x); simpl; [destruct (f x)|]; by rewrite IH.
Qed.

Lemma filter_none {A : Type} (f : A -> bool) (l : list A) :
  (forall x, In x l -> f x = false) -> List.filter f l = [].
Proof.
  induction l as [|x l IH]; [done|]. intros H. simpl.
  rewrite (H x) by (by left). apply IH. intros y Hy. apply H. by right.
Qed.

(** *** The single-line query *)

(** The rows [getLinePointsByBbox] selects are the rows of the line with
    zoom at most the requested one that the bbox matches, each as often
    as the table holds it. *)
Lemma getLinePointsByBbox_rows_exact tbl lineId b z :
  Permutation
    (getLinePointsByBbox_rows tbl lineId (Some (BboxWithZoom.make b z None)))
    (List.filter
       (fun p => N.eqb (LinePoint.lineId p) lineId && N.leb (LinePoint.zoom p) z
                 && inBbox b (LinePoint.lat p) (LinePoint.lon p)) tbl).
Proof.
  unfold getLinePointsByBbox_rows. rewrite orderByIdx_Permutation.
  unfold Line_getLinePoints, findAll.
  erewrite List.filter_ext; [reflexivity|].
  intros p. rewrite getLinePointsByBbox_where_eval, makeBboxCondition_plain.
  cbn [BboxWithZoom.zoom BboxWithZoom.make]. rewrite num_eqb, num_leb.
  by destruct (N.eqb _ _), (inBbox _ _ _), (N.leb _ _).
Qed.

(** *** The query by pad *)

Section PadQuery.
Variable makeBboxCondition : BboxWithZoom.t -> Where.

Lemma pad_group_rows tbl b lineIds k :
  List.filter (fun p => N.eqb (LinePoint.lineId p) k)
    (findAll tbl
       (W_and [ W_obj [ ("zoom", [lte (num (BboxWithZoom.zoom b))]);
                        ("lineId", [in_list (map num lineIds)]) ];
                makeBboxCondition b ]))
  = if existsb (N.eqb k) lineIds then padSelected makeBboxCondition tbl b k else [].
Proof.
  unfold findAll, padSelected. rewrite filter_filter_andb.
  destruct (existsb (N.eqb k) lineIds) eqn:Hk.
  - apply List.filter_ext_in. intros p _. cbn. rewrite !andb_true_r, num_leb.
    destruct (N.eqb_spec (LinePoint.lineId p) k) as [->|_];
      [|by rewrite andb_false_r].
    replace (existsb (Qeq_bool (num k)) (map num lineIds)) with true.
    + by destruct (N.leb _ _), (evalWhere _ _).
    + symmetry. apply in_list_num. apply existsb_exists in Hk as (x & Hx & Heq).
      apply N.eqb_eq in Heq. by subst.
  - apply filter_none. intros p _. cbn. rewrite !andb_true_r.
    destruct (N.eqb_spec (LinePoint.lineId p) k) as [->|_];
      [|by rewrite andb_false_r].
    replace (existsb (Qeq_bool (num k)) (map num lineIds)) with false.
    + by rewrite andb_false_r.
    + symmetry. apply not_true_is_false. rewrite in_list_num. intros Hin.
      apply not_true_iff_false in Hk. apply Hk, existsb_exists.
      exists k. split; [done|]. apply N.eqb_refl.
Qed.

Lemma getLinePointsForPad_batch_In tbl b lineIds e :
  In e (getLinePointsForPad_batch makeBboxCondition tbl b lineIds) <->
  In (LineTrackPoints.id e) lineIds /\
  LineTrackPoints.trackPoints e <> [] /\
  LineTrackPoints.trackPoints e
    = map LinePoint.toTrackPoint (padSelected makeBboxCondition tbl b (LineTrackPoints.id e)).
Proof.
  unfold getLinePointsForPad_batch. rewrite in_map_iff. split.
  - intros ([k v] & <- & Hkv). apply Object_entries_In in Hkv.
    rewrite groupBy_lookup, pad_group_rows in Hkv. cbn.
    destruct (existsb (N.eqb k) lineIds) eqn:Hk; [|done].
    apply existsb_exists in Hk as (x & Hx & Heq). apply N.eqb_eq in Heq. subst x.
    destruct (padSelected makeBboxCondition tbl b k) as [|p rows] eqn:Hsel; [done|].
    injection Hkv as <-. done.
  - intros (Hin & Hne & Heq). destruct e as [k tps]. cbn in *.
    exists (k, padSelected makeBboxCondition tbl b k). split; [by rewrite Heq|].
    apply Object_entries_In. rewrite groupBy_lookup, pad_group_rows.
    replace (existsb (N.eqb k) lineIds) with true.
    + destruct (padSelected makeBboxCondition tbl b k); [by subst|done].
    + symmetry. apply existsb_exists. exists k. split; [done|]. apply N.eqb_refl.
Qed.

(** What [getLinePointsForPad] returns: one group for each line of the
    pad that has a selected row, holding exactly these rows, in table
    order. *)
Lemma getLinePointsForPad_In lines tbl padId b e :
  In e (getLinePointsForPad makeBboxCondition lines tbl padId b) <->
  (exists l, In l lines /\ LineModel.padId l = padId /\
             LineModel.id l = LineTrackPoints.id e) /\
  LineTrackPoints.trackPoints e <> [] /\
  LineTrackPoints.trackPoints e
    = map LinePoint.toTrackPoint (padSelected makeBboxCondition tbl b (LineTrackPoints.id e)).
Proof.
  unfold getLinePointsForPad. rewrite in_concat.
  assert (Hids : forall k,
    In k (map LineModel.id
            (List.filter (fun l => String.eqb (LineModel.padId l) padId) lines)) <->
    exists l, In l lines /\ LineModel.padId l = padId /\ LineModel.id l = k).
  { intros k. rewrite in_map_iff. split.
    - intros (l & <- & Hl). apply filter_In in Hl as [Hl Hpad].
      apply String.eqb_eq in Hpad. eauto.
    - intros (l & Hl & Hpad & <-). exists l. split; [done|].
      apply filter_In. split; [done|]. by apply String.eqb_eq. }
  rewrite <- Hids. split.
  - intros (es & Hes & He). apply in_map_iff in Hes as (lineIds & <- & Hbatch).
    apply getLinePointsForPad_batch_In in He as (Hin & Hne & Heq).
    repeat split; try done.
    apply (batch_In (N.to_nat 50000)); [lia|]. eauto.
  - intros (Hin & Hne & Heq).
    apply (batch_In (N.to_nat 50000)) in Hin as (lineIds & Hbatch & Hin); [|lia].
    exists (getLinePointsForPad_batch makeBboxCondition tbl b lineIds). split.
    + by apply in_map.
    + by apply getLinePointsForPad_batch_In.
Qed.
(** The groups of one batch come in ascending order of their line id,
    each id once. *)
Lemma getLinePointsForPad_batch_ids_sorted tbl b lineIds :
  StronglySorted N.lt
    (map LineTrackPoints.id
       (getLinePointsForPad_batch makeBboxCondition tbl b lineIds)).
Proof.
  unfold getLinePointsForPad_batch. rewrite map_map.
  erewrite map_ext; [apply Object_entries_keys_sorted|].
  by intros [k v].
Qed.

Lemma StronglySorted_lt_NoDup (l : list N) : StronglySorted N.lt l -> NoDup l.
Proof.
  induction 1 as [|x l _ IH Hall]; constructor; [|done].
  intros Hx. rewrite Forall_forall in Hall. specialize (Hall x Hx). lia.
Qed.

(** When the line ids of the pad are pairwise distinct (the id is the
    primary key of the Lines table), no line has two groups in the
    result. *)
Lemma getLinePointsForPad_one_group_per_line lines tbl padId b :
  NoDup (map LineModel.id
           (List.filter (fun l => String.eqb (LineModel.padId l) padId) lines)) ->
  NoDup (map LineTrackPoints.id
           (getLinePointsForPad makeBboxCondition lines tbl padId b)).
Proof.
  unfold getLinePointsForPad.
  set (ids := map LineModel.id _). intros Hnd.
  rewrite <- (batch_concat (N.to_nat 50000) ids) in Hnd by lia.
  induction (batch (N.to_nat 50000) ids) as [|lineIds batches IH]; [constructor|].
  cbn [map concat] in *. rewrite map_app.
  apply NoDup_app in Hnd as (Hnd1 & Hdisj & Hnd2).
  apply NoDup_app. split; [|split].
  - apply StronglySorted_lt_NoDup, getLinePointsForPad_batch_ids_sorted.
  - intros k Hk1 Hk2.
    apply list_elem_of_In, in_map_iff in Hk1 as (e1 & <- & He1).
    apply getLinePointsForPad_batch_In in He1 as (Hin1 & _).
    apply (Hdisj (LineTrackPoints.id e1)); [by apply list_elem_of_In|].
    apply list_elem_of_In, in_map_iff in Hk2 as (e2 & Heq & He2).
    apply in_concat in He2 as (es & Hes & He2).
    apply in_map_iff in Hes as (lineIds' & <- & Hbatch).
    apply getLinePointsForPad_batch_In in He2 as (Hin2 & _).
    apply list_elem_of_In, in_concat. exists lineIds'. split; [done|]. congruence.
  - by apply IH.
Qed.
End PadQuery.



(** *** Replacing the points of a line *)

Lemma lineId_where_eval p lineId :
  evalWhere (LinePoint.col p) (W_obj [("lineId", [eq_to (num lineId)])])
  = N.eqb (LinePoint.lineId p) lineId.
Proof. cbn. by rewrite !andb_true_r, num_eqb. Qed.

Lemma pointsOf_app k t1 t2 :
  pointsOf k (t1 ++ t2) = (pointsOf k t1 ++ pointsOf k t2)%list.
Proof. apply List.filter_app. Qed.

Lemma pointsOf_destroy_same lineId tbl :
  pointsOf lineId (LinePoint_destroy (W_obj [("lineId", [eq_to (num lineId)])]) tbl) = [].
Proof.
  unfold pointsOf, LinePoint_destroy. rewrite filter_filter_andb.
  apply filter_none. intros p _. rewrite lineId_where_eval.
  by destruct (N.eqb _ _).
Qed.

Lemma pointsOf_destroy_other lineId other tbl :
  other <> lineId ->
  pointsOf other (LinePoint_destroy (W_obj [("lineId", [eq_to (num lineId)])]) tbl)
  = pointsOf other tbl.
Proof.
  intros Hne. unfold pointsOf, LinePoint_destroy. rewrite filter_filter_andb.
  apply List.filter_ext. intros p. rewrite lineId_where_eval.
  destruct (N.eqb_spec (LinePoint.lineId p) lineId) as [->|_]; [|done].
  simpl. symmetry. by apply N.eqb_neq.
Qed.

Lemma pointsOf_created_same lineId (rows : list TrackPoint.t) :
  pointsOf lineId (map (LinePoint.ofTrackPoint lineId) rows)
  = map (LinePoint.ofTrackPoint lineId) rows.
Proof.
  unfold pointsOf. induction rows as [|r rows IH]; [done|].
  cbn. by rewrite N.eqb_refl, IH.
Qed.

Lemma pointsOf_created_other lineId other (rows : list TrackPoint.t) :
  other <> lineId ->
  pointsOf other (map (LinePoint.ofTrackPoint lineId) rows) = [].
Proof.
  intros Hne. apply filter_none. intros p Hp.
  apply in_map_iff in Hp as (r & <- & _). cbn. apply N.eqb_neq. congruence.
Qed.

Lemma toTrackPoint_ofTrackPoint lineId tp :
  LinePoint.toTrackPoint (LinePoint.ofTrackPoint lineId tp) = tp.
Proof. by destruct tp. Qed.

Lemma run_bulkCreate batches tbl :
  run (map LinePoint_bulkCreate batches) tbl = (tbl ++ concat batches)%list.
Proof.
  unfold run. revert tbl. induction batches as [|b bs IH]; intros tbl; simpl.
  - by rewrite app_nil_r.
  - rewrite IH. unfold LinePoint_bulkCreate. by rewrite <- app_assoc.
Qed.

(** While chunks are inserted one after the other, the table is the
    initial one followed by a prefix of the rows to insert. *)
Lemma observable_bulkCreate batches tbl s :
  In s (observable (map LinePoint_bulkCreate batches) tbl) ->
  exists pre post, concat batches = (pre ++ post)%list /\ s = (tbl ++ pre)%list.
Proof.
  revert tbl. induction batches as [|b bs IH]; intros tbl; simpl.
  - intros [<-|[]]. exists [], []. by rewrite !app_nil_r.
  - intros [<-|Hs].
    + exists [], (b ++ concat bs)%list. by rewrite !app_nil_r.
    + apply IH in Hs as (pre & post & Hcat & ->). unfold LinePoint_bulkCreate.
      exists (b ++ pre)%list, post. rewrite Hcat. by rewrite <- !app_assoc.
Qed.

Lemma prefix_of_created lineId (tps : list TrackPoint.t) (pre post : list LinePoint.t) :
  map (LinePoint.ofTrackPoint lineId) tps = (pre ++ post)%list ->
  pointsOf lineId pre = pre /\
  forall other, other <> lineId -> pointsOf other pre = [].
Proof.
  intros Heq. apply map_eq_app in Heq as (t1 & t2 & -> & <- & <-).
  split; [apply pointsOf_created_same|].
  intros other Hne. by apply pointsOf_created_other.
Qed.

(** C6 (as the code has it). [setLinePoints] replaces the stored point
    sequence of the line: when it completes, the stored points of the
    line are exactly the given ones, and the points of every other line
    are as before. It does so in separate statements, a delete followed
    by the insert(s). Every table a reader can find in between is the
    initial table or the table without the old points of the line
    followed by an initial part of the new points (none, some for the
    chunked insert, or all): the other lines are untouched, and the line
    never holds old points together with new ones. The chunked
    [_setLinePoints] then emits exactly the given points. *)
Theorem setLinePoints_replaces :
  (forall (lineId : ID) (trackPoints : list TrackPoint.t) (tbl : LinePoints),
     let new := map (LinePoint.ofTrackPoint lineId) trackPoints in
     let deleted := LinePoint_destroy (W_obj [("lineId", [eq_to (num lineId)])]) tbl in
     pointsOf lineId (setLinePoints lineId trackPoints tbl) = new /\
     (forall other, other <> lineId ->
        pointsOf other (setLinePoints lineId trackPoints tbl) = pointsOf other tbl) /\
     (forall s, In s (observable (setLinePoints_statements lineId trackPoints) tbl) ->
        (forall other, other <> lineId -> pointsOf other s = pointsOf other tbl) /\
        (s = tbl \/
         s = deleted /\ pointsOf lineId s = [] \/
         s = (deleted ++ new)%list /\ pointsOf lineId s = new))) /\
  (forall (ITEMS_PER_BATCH : nat) (padId : string) (lineId : ID)
          (trackPoints : list TrackPoint.t) (tbl : LinePoints),
     0 < ITEMS_PER_BATCH ->
     let new := map (LinePoint.ofTrackPoint lineId) trackPoints in
     let deleted := LinePoint_destroy (W_obj [("lineId", [eq_to (num lineId)])]) tbl in
     pointsOf lineId (_setLinePoints ITEMS_PER_BATCH lineId trackPoints tbl) = new /\
     (forall other, other <> lineId ->
        pointsOf other (_setLinePoints ITEMS_PER_BATCH lineId trackPoints tbl)
        = pointsOf other tbl) /\
     (forall s,
        In s (observable (_setLinePoints_statements ITEMS_PER_BATCH lineId trackPoints) tbl) ->
        (forall other, other <> lineId -> pointsOf other s = pointsOf other tbl) /\
        (s = tbl \/
         exists pre post,
           new = (pre ++ post)%list /\ s = (deleted ++ pre)%list /\
           pointsOf lineId s = pre)) /\
     _setLinePoints_emit padId lineId trackPoints false
       = Some (padId, lineId, trackPoints)).
Proof.
  split.
  - intros lineId tps tbl new deleted.
    assert (Hfinal : pointsOf lineId (setLinePoints lineId tps tbl) = new).
    { unfold setLinePoints, setLinePoints_statements, run, LinePoint_bulkCreate.
      cbn [fold_left]. rewrite pointsOf_app, pointsOf_destroy_same.
      apply pointsOf_created_same. }
    assert (Hother : forall other, other <> lineId ->
      pointsOf other (setLinePoints lineId tps tbl) = pointsOf other tbl).
    { intros other Hne.
      unfold setLinePoints, setLinePoints_statements, run, LinePoint_bulkCreate.
      cbn [fold_left]. rewrite pointsOf_app, pointsOf_destroy_other by done.
      rewrite pointsOf_created_other by done. apply app_nil_r. }
    split; [exact Hfinal|split; [exact Hother|]].
    intros s Hs. cbn in Hs. destruct Hs as [<-|[<-|[<-|[]]]].
    + split; [done|by left].
    + split; [intros; by apply pointsOf_destroy_other|].
      right; left. split; [done|]. apply pointsOf_destroy_same.
    + split; [exact Hother|]. right; right. split; [done|]. exact Hfinal.
  - intros n padId lineId tps tbl Hn new deleted. subst new deleted.
    pose proof (batch_concat n (map (LinePoint.ofTrackPoint lineId) tps) Hn) as Hcat.
    assert (Hfinal : pointsOf lineId (_setLinePoints n lineId tps tbl)
                     = map (LinePoint.ofTrackPoint lineId) tps).
    { unfold _setLinePoints, _setLinePoints_statements, _bulkCreateInBatches.
      change (run (?d :: ?rest) tbl) with (run rest (d tbl)).
      rewrite run_bulkCreate, Hcat, pointsOf_app, pointsOf_destroy_same.
      apply pointsOf_created_same. }
    assert (Hother : forall other, other <> lineId ->
      pointsOf other (_setLinePoints n lineId tps tbl) = pointsOf other tbl).
    { intros other Hne.
      unfold _setLinePoints, _setLinePoints_statements, _bulkCreateInBatches.
      change (run (?d :: ?rest) tbl) with (run rest (d tbl)).
      rewrite run_bulkCreate, Hcat, pointsOf_app, pointsOf_destroy_other by done.
      rewrite pointsOf_created_other by done. apply app_nil_r. }
    split; [exact Hfinal|split; [exact Hother|split]].
    + intros s Hs. unfold _setLinePoints_statements, _bulkCreateInBatches in Hs.
      cbn [observable] in Hs. destruct Hs as [<-|Hs]; [split; [done|by left]|].
      apply observable_bulkCreate in Hs as (pre & post & Hpre & ->).
      rewrite Hcat in Hpre.
      destruct (prefix_of_created lineId tps pre post Hpre) as [Hsame Hnone].
      split.
      * intros other Hne.
        rewrite pointsOf_app, pointsOf_destroy_other, Hnone by done. apply app_nil_r.
      * right. exists pre, post. split; [done|]. split; [done|].
        by rewrite pointsOf_app, pointsOf_destroy_same, Hsame.
    + unfold _setLinePoints_emit. rewrite map_map.
      f_equal. f_equal. rewrite <- (map_id tps) at 2.
      apply map_ext. intros tp. apply toTrackPoint_ofTrackPoint.
Qed.

Lemma setLinePoints_replaces_witness :
  let tbl := [ LinePoint.mk 1 0 0 1 0 None; LinePoint.mk 2 3 3 1 0 None ] in
  let trackPoints := [ TrackPoint.mk 1 1 1 0 None; TrackPoint.mk 2 2 1 1 None;
                       TrackPoint.mk 4 4 1 2 None ] in
  0 < 2 /\
  pointsOf 1 (_setLinePoints 2 1 trackPoints tbl)
    = map (LinePoint.ofTrackPoint 1) trackPoints /\
  pointsOf 2 (setLinePoints 1 trackPoints tbl) = pointsOf 2 tbl.
Proof.
  intros tbl trackPoints.
  assert (Hn : 0 < 2) by lia.
  assert (Hne : 2%N <> 1%N) by lia.
  split; [exact Hn|split].
  - exact (proj1 (proj2 setLinePoints_replaces 2 "P" 1%N trackPoints tbl Hn)).
  - exact (proj1 (proj2 (proj1 setLinePoints_replaces 1%N trackPoints tbl)) 2%N Hne).
Defined.

(** C6, atomicity: the replacement is not atomic for a reader. Between
    the delete and the insert the line has no stored point at all, which
    is neither its old nor its new point sequence. *)
Lemma setLinePoints_intermediate_state :
  let old := LinePoint.mk 1 0 0 1 0 None in
  let tp := TrackPoint.mk 1 1 1 0 None in
  let states := observable (setLinePoints_statements 1 [tp]) [old] in
  states = [ [old]; []; [LinePoint.ofTrackPoint 1 tp] ] /\
  ~ (forall s, In s states ->
       pointsOf 1 s = pointsOf 1 [old] \/
       pointsOf 1 s = map (LinePoint.ofTrackPoint 1) [tp]).
Proof.
  intros old tp states.
  assert (Hstates : states = [ [old]; []; [LinePoint.ofTrackPoint 1 tp] ])
    by (vm_compute; reflexivity).
  split; [exact Hstates|].
  intros Hatomic. specialize (Hatomic []). rewrite Hstates in Hatomic.
  destruct Hatomic as [H|H]; [right; by left|discriminate H..].
Qed.

(** *** database.js *)

Lemma thenNotify_cases (resp : Response) (notify : Doc.t -> Effect) :
  (truthy (fst resp) = true /\
   thenNotify resp notify = [ Callback (fst resp) None ]) \/
  (truthy (fst resp) = false /\
   exists data, snd resp = Some data /\
     thenNotify resp notify = [ notify data; Callback None (Some data) ]) \/
  (truthy (fst resp) = false /\ snd resp = None /\
   thenNotify resp notify = [ ThrowTypeError ]).
Proof.
  destruct resp as [err [data|]]; unfold thenNotify; cbn [fst snd];
    destruct (truthy err); eauto 10.
Qed.



(** A successful marker update, for comparison: one broadcast, then the
    callback with the object. *)
Example updateMarker_succeeds :
  let stored := Doc.mk "pad" "m1" (Some (Position.mk 1 2)) (Some "Peak") [] in
  updateMarker "m1" (Doc.mk "" "m1" None (Some "Peak") []) (None, Some stored)
  = [ Call (B_updateMarker "m1" (Doc.mk "" "m1" None (Some "Peak") []));
      NotifyPadListeners "pad" (Some (Position.mk 1 2)) "marker" (P_doc stored);
      Callback None (Some stored) ].
Proof. reflexivity. Qed.

(** C9. [getPadData] never reports a pad as not found. When the lookup
    succeeds without a pad, it calls [createPad] with the same id and
    hands the answer of the creation to the caller; when the lookup
    yields an error or a pad, it hands that to the caller. So the caller
    gets an error only when the lookup or the creation failed, and it
    gets neither error nor pad only when the creation itself returned
    neither. *)
Theorem getPadData_creates_missing_pad :
  forall (padId : string) (lookup created : Response),
    (truthy (fst lookup) = false -> snd lookup = None ->
       getPadData padId lookup created
       = [ Call (B_getPadData padId); Call (B_createPad padId);
           Callback (fst created) (snd created) ]) /\
    (truthy (fst lookup) = true \/ snd lookup <> None ->
       getPadData padId lookup created
       = [ Call (B_getPadData padId); Callback (fst lookup) (snd lookup) ]) /\
    (forall err data,
       In (Callback err data) (getPadData padId lookup created) ->
       truthy err = true ->
       truthy (fst lookup) = true \/ truthy (fst created) = true) /\
    (forall err data,
       In (Callback err data) (getPadData padId lookup created) ->
       truthy err = false -> data = None ->
       truthy (fst created) = false /\ snd created = None).
Proof.
  intros padId [lerr ldata] [cerr cdata]. unfold getPadData. cbn [fst snd].
  destruct (truthy lerr) eqn:Hl; cbn [orb].
  - split; [done|]. split; [done|]. split.
    + intros err data [H|[H|[]]]; [done|]. injection H as <- <-. auto.
    + intros err data [H|[H|[]]]; [done|]. injection H as <- <-. congruence.
  - destruct ldata as [pad|].
    + rewrite bool_decide_true by done. split; [done|]. split; [done|]. split.
      * intros err data [H|[H|[]]]; [done|]. injection H as <- <-. congruence.
      * intros err data [H|[H|[]]]; [done|]. injection H as <- <-.
        intros _ Hnone. discriminate Hnone.
    + rewrite bool_decide_false by (intros H; by apply H).
      split; [done|]. split; [intros [H|H]; done|]. split.
      * intros err data [H|[H|[H|[]]]]; try done. injection H as <- <-. auto.
      * intros err data [H|[H|[H|[]]]]; try done. by injection H as <- <-.
Qed.

Lemma getPadData_creates_missing_pad_witness :
  let created : Response := (None, Some (Doc.mk "p1" "p1" None None [])) in
  truthy (fst ((None, None) : Response)) = false /\
  getPadData "p1" (None, None) created
  = [ Call (B_getPadData "p1"); Call (B_createPad "p1");
      Callback None (Some (Doc.mk "p1" "p1" None None [])) ].
Proof.
  intros created.
  assert (H1 : truthy (fst ((None, None) : Response)) = false) by reflexivity.
  assert (H2 : snd ((None, None) : Response) = None) by reflexivity.
  split; [exact H1|].
  exact (proj1 (getPadData_creates_missing_pad "p1" (None, None) created) H1 H2).
Defined.

(** *** Merging track points *)

Lemma assignTrackPoints_app m l1 l2 :
  assignTrackPoints m (l1 ++ l2) = assignTrackPoints (assignTrackPoints m l1) l2.
Proof. apply foldl_app. Qed.

(** An index that no incoming point carries keeps what it had. *)
Lemma assignTrackPoints_notin m l i :
  ~ In i (map TrackPoint.idx l) -> assignTrackPoints m l !! i = m !! i.
Proof.
  revert m. induction l as [|p l IH]; intros m Hi; [done|].
  cbn in *. rewrite IH by tauto. apply lookup_insert_ne. tauto.
Qed.

(** What ends up at an index depends on the existing mapping at that
    index only. *)
Lemma assignTrackPoints_ext m1 m2 l i :
  m1 !! i = m2 !! i -> assignTrackPoints m1 l !! i = assignTrackPoints m2 l !! i.
Proof.
  revert m1 m2. induction l as [|p l IH]; intros m1 m2 H; [done|].
  cbn. apply IH. destruct (decide (TrackPoint.idx p = i)) as [->|Hne].
  - by rewrite !lookup_insert_eq.
  - by rewrite !lookup_insert_ne.
Qed.

(** An index that an incoming point carries ends up with an incoming
    point of that index. *)
Lemma assignTrackPoints_in m l i :
  In i (map TrackPoint.idx l) ->
  exists p, In p l /\ TrackPoint.idx p = i /\ assignTrackPoints m l !! i = Some p.
Proof.
  induction l as [|p l IH] using rev_ind; [done|].
  rewrite map_app, in_app_iff, assignTrackPoints_app. cbn.
  destruct (decide (TrackPoint.idx p = i)) as [<-|Hne].
  - intros _. exists p. rewrite in_app_iff. cbn. rewrite lookup_insert_eq. auto.
  - intros [Hi|[Hi|[]]]; [|done].
    destruct (IH Hi) as (q & Hq & Hidx & Hlook). exists q.
    rewrite in_app_iff, lookup_insert_ne by done. auto.
Qed.

(** With pairwise distinct indexes, every incoming point is stored at its
    index. *)
Lemma assignTrackPoints_NoDup m l p :
  NoDup (map TrackPoint.idx l) -> In p l ->
  assignTrackPoints m l !! TrackPoint.idx p = Some p.
Proof.
  revert m. induction l as [|q l IH]; intros m Hnd Hp; [done|].
  cbn in *. apply NoDup_cons in Hnd as [Hq Hnd].
  destruct Hp as [->|Hp]; [|by apply IH].
  rewrite assignTrackPoints_notin; [apply lookup_insert_eq|].
  intros Hin. apply Hq. by apply list_elem_of_In.
Qed.

Lemma assignTrackPoints_keeps m l i :
  is_Some (m !! i) -> is_Some (assignTrackPoints m l !! i).
Proof.
  revert m. induction l as [|p l IH]; intros m Hi; [done|].
  cbn. apply IH. destruct (decide (TrackPoint.idx p = i)) as [->|Hne].
  - rewrite lookup_insert_eq. eauto.
  - by rewrite lookup_insert_ne.
Qed.

(** Two batches without common index can be merged in either order. *)
Lemma assignTrackPoints_disjoint_comm m l1 l2 :
  (forall p1 p2, In p1 l1 -> In p2 l2 -> TrackPoint.idx p1 <> TrackPoint.idx p2) ->
  assignTrackPoints m (l1 ++ l2) = assignTrackPoints m (l2 ++ l1).
Proof.
  intros Hdisj. apply map_eq. intros i. rewrite !assignTrackPoints_app.
  destruct (in_dec N.eq_dec i (map TrackPoint.idx l2)) as [Hi2|Hi2].
  - assert (Hi1 : ~ In i (map TrackPoint.idx l1)).
    { intros Hi1. apply in_map_iff in Hi1 as (p1 & <- & Hp1).
      apply in_map_iff in Hi2 as (p2 & Heq & Hp2). by apply (Hdisj p1 p2). }
    rewrite (assignTrackPoints_notin _ l1) by done.
    apply assignTrackPoints_ext. by apply assignTrackPoints_notin.
  - rewrite (assignTrackPoints_notin _ l2) by done.
    apply assignTrackPoints_ext. symmetry. by apply assignTrackPoints_notin.
Qed.

(** [length] is above every known index, and is the successor of one of
    them unless there is none. *)
Lemma trackPointsLength_spec (m : gmap N TrackPoint.t) :
  (forall i, is_Some (m !! i) -> (i < trackPointsLength m)%N) /\
  (trackPointsLength m = 0%N /\ m = ∅ \/
   exists i, is_Some (m !! i) /\ trackPointsLength m = (i + 1)%N).
Proof.
  unfold trackPointsLength.
  induction m as [|i x m Hi IH] using map_ind.
  - rewrite map_fold_empty. split; [|by left].
    intros i [x Hx]. by rewrite lookup_empty in Hx.
  - rewrite map_fold_insert_L; [|intros; lia|done].
    destruct IH as [IHub IHmax]. split.
    + intros j Hj. destruct (decide (i = j)) as [->|Hne]; [lia|].
      rewrite lookup_insert_ne in Hj by done. specialize (IHub j Hj). lia.
    + right. destruct (N.max_spec (map_fold (fun i _ length => N.max length (i + 1)) 0%N m)
                                  (i + 1)) as [[Hlt ->]|[Hle ->]].
      * exists i. by rewrite lookup_insert_eq.
      * destruct IHmax as [[H0 _]|(j & Hj & Hmax)]; [lia|].
        exists j. split; [|done].
        destruct (decide (i = j)) as [->|Hne].
        -- rewrite lookup_insert_eq. eauto.
        -- by rewrite lookup_insert_ne.
Qed.

(** Merging in two steps is merging the concatenated batch, whatever the
    indexes. *)
Lemma mergeTrackPoints_two_steps existing P1 P2 :
  _mergeTrackPoints (Some (TrackPoints.points (_mergeTrackPoints existing P1))) P2
  = _mergeTrackPoints existing (P1 ++ P2).
Proof.
  unfold _mergeTrackPoints. cbn. by rewrite assignTrackPoints_app.
Qed.

(** C5. Merging track point batches. If the index sets of [P1] and [P2]
    are disjoint, merging [P1] into the empty mapping and then [P2]
    yields the mapping (points and [length]) that merging both batches at
    once yields, in either order of concatenation. If an index occurs in
    both batches, the point stored at it afterwards is a point of the
    later batch [P2]. A merge never removes a point: an index present
    before is present afterwards, also through the [linePoints] handler
    without [reset]. *)
Theorem mergeTrackPoints_laws :
  (forall P1 P2 : list TrackPoint.t,
     (forall p1 p2, In p1 P1 -> In p2 P2 -> TrackPoint.idx p1 <> TrackPoint.idx p2) ->
     _mergeTrackPoints (Some (TrackPoints.points (_mergeTrackPoints (Some ∅) P1))) P2
       = _mergeTrackPoints (Some ∅) (P1 ++ P2) /\
     _mergeTrackPoints (Some (TrackPoints.points (_mergeTrackPoints (Some ∅) P1))) P2
       = _mergeTrackPoints (Some ∅) (P2 ++ P1)) /\
  (forall (P1 P2 : list TrackPoint.t) (i : N),
     In i (map TrackPoint.idx P1) -> In i (map TrackPoint.idx P2) ->
     exists p, In p P2 /\ TrackPoint.idx p = i /\
       TrackPoints.points
         (_mergeTrackPoints (Some (TrackPoints.points (_mergeTrackPoints (Some ∅) P1))) P2)
         !! i = Some p) /\
  (forall (existing : gmap N TrackPoint.t) (new : list TrackPoint.t) (i : N),
     is_Some (existing !! i) ->
     is_Some (TrackPoints.points (_mergeTrackPoints (Some existing) new) !! i)) /\
  (forall (this : Client.t) (id : ID) (trackPoints : list TrackPoint.t)
          (line : LineWithTrackPoints.t) (i : N),
     Client.lines this !! id = Some line ->
     is_Some (TrackPoints.points (LineWithTrackPoints.trackPoints line) !! i) ->
     exists line',
       Client.lines (_handlers (E_linePoints id trackPoints false) this) !! id
         = Some line' /\
       is_Some (TrackPoints.points (LineWithTrackPoints.trackPoints line') !! i)).
Proof.
  split; [|split; [|split]].
  - intros P1 P2 Hdisj. rewrite mergeTrackPoints_two_steps. split; [done|].
    unfold _mergeTrackPoints. cbn.
    by rewrite (assignTrackPoints_disjoint_comm ∅ P1 P2).
  - intros P1 P2 i _ Hi2. unfold _mergeTrackPoints. cbn.
    by apply assignTrackPoints_in.
  - intros existing new i Hi. unfold _mergeTrackPoints. cbn.
    by apply assignTrackPoints_keeps.
  - intros this id tps line i Hline Hi. cbn. rewrite Hline. cbn.
    rewrite lookup_insert_eq. eexists. split; [done|]. cbn.
    by apply assignTrackPoints_keeps.
Qed.

Lemma mergeTrackPoints_laws_witness :
  let P1 := [ TrackPoint.mk 0 0 1 0 None; TrackPoint.mk 1 1 1 2 None ] in
  let P2 := [ TrackPoint.mk 2 2 5 1 None ] in
  _mergeTrackPoints (Some (TrackPoints.points (_mergeTrackPoints (Some ∅) P1))) P2
    = _mergeTrackPoints (Some ∅) (P1 ++ P2) /\
  _mergeTrackPoints (Some (TrackPoints.points (_mergeTrackPoints (Some ∅) P1))) P2
    = _mergeTrackPoints (Some ∅) (P2 ++ P1).
Proof.
  intros P1 P2. apply (proj1 mergeTrackPoints_laws P1 P2).
  intros p1 p2 [<-|[<-|[]]] [<-|[]]; vm_compute; discriminate.
Defined.

(** Overlapping batches: the later point wins, and [length] counts up to
    the largest index. *)
Example mergeTrackPoints_overlap :
  let early := TrackPoint.mk 0 0 1 3 None in
  let late := TrackPoint.mk 9 9 1 3 None in
  let merged :=
    _mergeTrackPoints (Some (TrackPoints.points (_mergeTrackPoints (Some ∅) [early])))
                      [late] in
  TrackPoints.points merged !! 3%N = Some late /\ TrackPoints.length merged = 4%N.
Proof. vm_compute. by split. Qed.

(** *** The client's viewport *)

Lemma handlers_bbox e this : Client.bbox (_handlers e this) = Client.bbox this.
Proof.
  destruct e; cbn; try done.
  - destruct (PadData.writable data); cbn;
      repeat match goal with |- context [if ?b then _ else _] => destruct b end;
      repeat match goal with |- context [match ?o with Some _ => _ | None => _ end] =>
                               destruct o end; done.
  - by destruct (Client.lines this !! id).
  - by destruct (Client.route this).
  - by destruct (Client.routes this !! routeId).
  - destruct (Client.padData this); [|done].
    by destruct (N_eqb_opt _ _).
Qed.

Lemma receiveMultiple_bbox obj this :
  Client.bbox (_receiveMultiple obj this) = Client.bbox this.
Proof.
  destruct obj as [events|]; [|done]. cbn. revert this.
  induction events as [|e events IH]; intros this; [done|].
  cbn. rewrite IH. apply handlers_bbox.
Qed.

(** C7 (as the code has it). [updateBbox] stores the bbox it is given as
    the viewport of the connection before it sends the request, whatever
    the bbox is; it validates nothing itself. The call is rejected
    exactly when the server answers with an error, with that error, and
    the stored viewport is then the new bbox as well. *)
Theorem updateBbox_stores_viewport :
  forall (bbox : BboxWithZoom.t) (answer : option Err * option (list Event))
         (this : Client.t),
    Client.bbox (fst (updateBbox bbox answer this)) = Some bbox /\
    snd (updateBbox bbox answer this)
      = (if truthy (fst answer) then fst answer else None).
Proof.
  intros bbox [[err|] obj] this; unfold updateBbox, _emit; cbn [fst snd].
  - destruct (truthy (Some err)); cbn [fst snd]; [done|].
    by rewrite receiveMultiple_bbox.
  - cbn [fst snd]. by rewrite receiveMultiple_bbox.
Qed.

(** C7, the failure case: a malformed bbox does not leave the previous
    viewport in place. With a stored viewport, a bbox whose [left] is 200
    and whose [top] is below its [bottom], and a server that rejects the
    request, the connection ends up with the malformed bbox as its
    viewport. *)
Lemma updateBbox_overwrites_viewport :
  let good := BboxWithZoom.mk 10 0 0 10 5 None in
  let bad := BboxWithZoom.mk 0 10 200 10 5 None in
  let this :=
    Client.mk false (Some "pad") (Some good) None None None false
              ∅ ∅ ∅ ∅ ∅ None ∅ 0 in
  let result := updateBbox bad (Some "InvalidBboxError", None) this in
  malformedBbox bad = true /\
  Client.bbox this = Some good /\
  snd result = Some "InvalidBboxError" /\
  Client.bbox (fst result) = Some bad /\
  Client.bbox (fst result) <> Client.bbox this.
Proof. cbv zeta. repeat split. discriminate. Qed.

(** *** Deleting a view *)

(** C10. Applying a [deleteView] event removes the view from [views];
    if [padData.defaultViewId] is the id of the view, it becomes [null],
    and otherwise [padData] is left as it is. Afterwards
    [defaultViewId] does not refer to the deleted view, and if it
    referred to a known view before, it still does. *)
Theorem deleteView_clears_default :
  forall (this : Client.t) (id : ID),
    let this' := _handlers (E_deleteView id) this in
    Client.views this' = delete id (Client.views this) /\
    (forall padData,
       Client.padData this = Some padData ->
       PadData.defaultViewId padData = Some id ->
       Client.padData this' = Some (PadData.set_defaultViewId None padData)) /\
    (forall padData,
       Client.padData this = Some padData ->
       PadData.defaultViewId padData <> Some id ->
       Client.padData this' = Client.padData this) /\
    (Client.padData this = None -> Client.padData this' = None) /\
    (forall padData',
       Client.padData this' = Some padData' ->
       PadData.defaultViewId padData' <> Some id) /\
    ((forall padData v,
        Client.padData this = Some padData ->
        PadData.defaultViewId padData = Some v ->
        is_Some (Client.views this !! v)) ->
     forall padData' v,
       Client.padData this' = Some padData' ->
       PadData.defaultViewId padData' = Some v ->
       is_Some (Client.views this' !! v)).
Proof.
  intros this id this'. subst this'. cbn.
  destruct (Client.padData this) as [pd|] eqn:Hpd; cbn;
    [|rewrite ?Hpd; repeat split; intros; congruence].
  destruct (PadData.defaultViewId pd) as [v|] eqn:Hv; cbn.
  - destruct (N.eqb_spec v id) as [->|Hne]; cbn.
    + split; [done|]. split; [intros; by simplify_eq|].
      split; [intros; simplify_eq; congruence|]. split; [done|].
      split; [intros; by simplify_eq|]. intros; by simplify_eq.
    + split; [done|]. split; [intros; simplify_eq; congruence|].
      split; [done|]. split; [done|].
      split; [intros; simplify_eq; congruence|].
      intros Hinv pd' w Hpd' Hw. simplify_eq.
      rewrite lookup_delete_ne by done. by eapply Hinv.
  - split; [done|]. split; [intros; simplify_eq; congruence|].
    split; [done|]. split; [done|].
    split; [intros; simplify_eq; congruence|].
    intros; simplify_eq; congruence.
Qed.

Lemma deleteView_clears_default_witness :
  let padData := PadData.mk "pad" None None (Some 2%N) (Some 7%N) [] in
  let this :=
    Client.mk false (Some "pad") None (Some padData) (Some false) (Some 2%N) false
              ∅ ∅ {[ 7%N := View.mk 7 [] ]} ∅ ∅ None ∅ 0 in
  Client.padData this = Some padData /\
  PadData.defaultViewId padData = Some 7%N /\
  Client.padData (_handlers (E_deleteView 7) this)
    = Some (PadData.set_defaultViewId None padData).
Proof.
  intros padData this.
  assert (H1 : Client.padData this = Some padData) by reflexivity.
  assert (H2 : PadData.defaultViewId padData = Some 7%N) by reflexivity.
  split; [exact H1|split; [exact H2|]].
  exact (proj1 (proj2 (deleteView_clears_default this 7%N)) padData H1 H2).
Defined.

(* ===================================================================== *)
(** ** Further properties of the geometry store *)
(* ===================================================================== *)

Lemma Line_getLinePoints_In tbl lineId w p :
  In p (Line_getLinePoints tbl lineId w) <->
  In p tbl /\ LinePoint.lineId p = lineId /\ evalWhere (LinePoint.col p) w = true.
Proof.
  unfold Line_getLinePoints. rewrite findAll_In. cbn.
  rewrite !andb_true_r, andb_true_iff, num_eq. tauto.
Qed.

Lemma Line_getLinePoints_all tbl lineId :
  Line_getLinePoints tbl lineId (W_obj []) = pointsOf lineId tbl.
Proof.
  unfold Line_getLinePoints, findAll, pointsOf. apply List.filter_ext.
  intros p. cbn. by rewrite !andb_true_r, num_eqb.
Qed.

Lemma orderByIdx_nil : orderByIdx [] = [].
Proof. reflexivity. Qed.

Lemma idx_where_eval p indexes :
  evalWhere (LinePoint.col p) (W_obj [("idx", [in_list (map num indexes)])]) = true <->
  In (LinePoint.idx p) indexes.
Proof. cbn. by rewrite !andb_true_r, in_list_num. Qed.

(** X1. The two-step query. When no two stored points of the line carry
    the same idx, fetching by idx the indexes that the bbox query
    returned yields the rows the bbox query selected, reduced to lon, lat
    and idx, in ascending order of idx. *)
Theorem getLinePointsByIdx_of_bbox_query :
  forall (tbl : LinePoints) (lineId : ID) (bbox : option BboxWithZoom.t),
    (forall p q, In p tbl -> In q tbl ->
       LinePoint.lineId p = lineId -> LinePoint.lineId q = lineId ->
       LinePoint.idx p = LinePoint.idx q -> p = q) ->
    getLinePointsByIdx tbl lineId (getLinePointsByBbox tbl lineId bbox)
    = map PointWithIdx.ofRow (getLinePointsByBbox_rows tbl lineId bbox).
Proof.
  intros tbl lineId bbox Hkey. unfold getLinePointsByIdx, getLinePointsByBbox_rows.
  f_equal. f_equal. unfold Line_getLinePoints, findAll.
  apply List.filter_ext_in. intros p Hp. cbn -[getLinePointsByBbox_where].
  rewrite !andb_true_r.
  destruct (Qeq_bool (num (LinePoint.lineId p)) (num lineId)) eqn:Hid; [|done].
  apply num_eq in Hid. cbn [andb].
  apply eq_true_iff_eq. rewrite in_list_num, getLinePointsByBbox_In. split.
  - intros (q & Hq & Hidx).
    apply orderByIdx_In, Line_getLinePoints_In in Hq as (Hq & Hqid & Hw).
    by rewrite <- (Hkey q p Hq Hp Hqid Hid Hidx).
  - intros Hw. exists p. split; [|done].
    apply orderByIdx_In, Line_getLinePoints_In. done.
Qed.

Lemma getLinePointsByIdx_of_bbox_query_witness :
  let tbl := [ LinePoint.mk 1 5 5 1 0 None; LinePoint.mk 1 5 15 1 1 None;
               LinePoint.mk 2 5 5 1 0 None ] in
  let bbox := Some (BboxWithZoom.mk 10 0 0 10 5 None) in
  getLinePointsByIdx tbl 1 (getLinePointsByBbox tbl 1 bbox)
  = map PointWithIdx.ofRow (getLinePointsByBbox_rows tbl 1 bbox) /\
  getLinePointsByIdx tbl 1 (getLinePointsByBbox tbl 1 bbox) = [ PointWithIdx.mk 5 5 0 ].
Proof.
  intros tbl bbox. split; [|vm_compute; reflexivity].
  apply (getLinePointsByIdx_of_bbox_query tbl 1%N bbox).
  intros p q Hp Hq Hpid Hqid Hidx.
  destruct Hp as [<-|[<-|[<-|[]]]]; destruct Hq as [<-|[<-|[<-|[]]]];
    try reflexivity; try discriminate Hidx; try discriminate Hpid; discriminate Hqid.
Defined.

(** X2. Without a bbox the query of a line returns the indexes of all
    stored points of the line, those of no other line, in ascending
    order. *)
Theorem getLinePointsByBbox_without_bbox :
  forall (tbl : LinePoints) (lineId : ID),
    Permutation (getLinePointsByBbox tbl lineId None)
                (map LinePoint.idx (pointsOf lineId tbl)) /\
    StronglySorted N.le (getLinePointsByBbox tbl lineId None).
Proof.
  intros tbl lineId. split.
  - unfold getLinePointsByBbox, getLinePointsByBbox_rows.
    apply Permutation_map. rewrite orderByIdx_Permutation.
    unfold Line_getLinePoints, findAll, pointsOf.
    erewrite List.filter_ext; [reflexivity|].
    intros p. cbn. by rewrite !andb_true_r, num_eqb.
  - apply orderByIdx_sorted.
Qed.

(** X3. A bbox whose top lies below its bottom matches no point, and a
    bbox excepted from itself matches no point: both queries return the
    empty list for every table. *)
Theorem getLinePointsByBbox_empty_region :
  forall (tbl : LinePoints) (lineId : ID) (z : N) (b : Bbox.t),
    ((Bbox.top b < Bbox.bottom b)%Q ->
     forall e, getLinePointsByBbox tbl lineId (Some (BboxWithZoom.make b z e)) = []) /\
    getLinePointsByBbox tbl lineId (Some (BboxWithZoom.make b z (Some b))) = [].
Proof.
  intros tbl lineId z b.
  assert (Hnone : forall bz,
    (forall p, evalWhere (LinePoint.col p) (_makeBboxCondition (Some bz) None) = false) ->
    getLinePointsByBbox tbl lineId (Some bz) = []).
  { intros bz Hfalse.
    unfold getLinePointsByBbox, getLinePointsByBbox_rows, Line_getLinePoints, findAll.
    rewrite filter_none; [done|]. intros p _.
    rewrite getLinePointsByBbox_where_eval, Hfalse. by rewrite andb_false_r. }
  split.
  - intros Hempty e. apply Hnone. intros p.
    assert (Hout : inBbox b (LinePoint.lat p) (LinePoint.lon p) = false).
    { apply not_true_is_false. rewrite inBbox_spec. intros [[? ?] _]. lra. }
    destruct e as [e|].
    + by rewrite makeBboxCondition_except, Hout.
    + by rewrite makeBboxCondition_plain.
  - apply Hnone. intros p. rewrite makeBboxCondition_except.
    by destruct (inBbox b _ _).
Qed.

Lemma getLinePointsByBbox_empty_region_witness :
  let tbl := [ LinePoint.mk 1 5 5 1 0 None ] in
  let b := Bbox.mk 0 10 0 10 in
  (Bbox.top b < Bbox.bottom b)%Q /\
  getLinePointsByBbox tbl 1 (Some (BboxWithZoom.make b 5 None)) = [].
Proof.
  intros tbl b.
  assert (H : (Bbox.top b < Bbox.bottom b)%Q) by (vm_compute; reflexivity).
  split; [exact H|].
  exact (proj1 (getLinePointsByBbox_empty_region tbl 1%N 5%N b) H None).
Defined.

Lemma NoDup_map_inj_on {A B : Type} (f : A -> B) (l : list A) (x y : A) :
  NoDup (map f l) -> In x l -> In y l -> f x = f y -> x = y.
Proof.
  induction l as [|a l IH]; [done|]. cbn. intros Hnd Hx Hy Heq.
  apply NoDup_cons in Hnd as [Ha Hnd].
  destruct Hx as [->|Hx], Hy as [->|Hy]; [done| | |by apply IH].
  - exfalso. apply Ha. rewrite Heq. apply list_elem_of_In. by apply in_map.
  - exfalso. apply Ha. rewrite <- Heq. apply list_elem_of_In. by apply in_map.
Qed.

Lemma StronglySorted_map_lt_le (rows : list LinePoint.t) :
  StronglySorted N.lt (map LinePoint.idx rows) -> StronglySorted idx_le rows.
Proof.
  induction rows as [|p rows IH]; [constructor|]. cbn. intros Hs.
  apply StronglySorted_inv in Hs as [Hs Hall]. constructor; [by apply IH|].
  apply Forall_forall. intros q Hq. rewrite Forall_forall in Hall.
  unfold idx_le. enough (LinePoint.idx p < LinePoint.idx q)%N by lia.
  apply Hall. apply list_elem_of_fmap. by exists q.
Qed.

(** Ordering rows that are already in strictly ascending order of idx
    changes nothing. *)
Lemma orderByIdx_sorted_id (rows : list LinePoint.t) :
  StronglySorted N.lt (map LinePoint.idx rows) -> orderByIdx rows = rows.
Proof.
  intros Hs.
  apply (StronglySorted_unique_strong idx_le).
  - intros p q Hp Hq Hpq Hqp. unfold idx_le in *.
    apply (NoDup_map_inj_on LinePoint.idx rows).
    + by apply StronglySorted_lt_NoDup.
    + apply orderByIdx_In. by apply list_elem_of_In.
    + by apply list_elem_of_In.
    + lia.
  - apply StronglySorted_merge_sort; apply _.
  - by apply StronglySorted_map_lt_le.
  - apply merge_sort_Permutation.
Qed.

(** X4. Round trip through the store: after [_setLinePoints] with points
    in strictly ascending order of idx, [getAllLinePoints] returns exactly
    the points that were given, whatever the table held before. *)
Theorem getAllLinePoints_after_setLinePoints :
  forall (ITEMS_PER_BATCH : nat) (lineId : ID) (trackPoints : list TrackPoint.t)
         (tbl : LinePoints),
    0 < ITEMS_PER_BATCH ->
    StronglySorted N.lt (map TrackPoint.idx trackPoints) ->
    getAllLinePoints (_setLinePoints ITEMS_PER_BATCH lineId trackPoints tbl) lineId
    = trackPoints.
Proof.
  intros n lineId tps tbl Hn Hs. unfold getAllLinePoints.
  rewrite Line_getLinePoints_all.
  unfold _setLinePoints, _setLinePoints_statements, _bulkCreateInBatches.
  change (run (?d :: ?rest) tbl) with (run rest (d tbl)).
  rewrite run_bulkCreate, batch_concat, pointsOf_app, pointsOf_destroy_same by done.
  cbn [app]. rewrite pointsOf_created_same, orderByIdx_sorted_id.
  - rewrite map_map. rewrite <- (map_id tps) at 2.
    apply map_ext. intros tp. apply toTrackPoint_ofTrackPoint.
  - rewrite map_map. erewrite map_ext; [exact Hs|]. by intros [].
Qed.

Lemma getAllLinePoints_after_setLinePoints_witness :
  let trackPoints := [ TrackPoint.mk 0 0 1 0 None; TrackPoint.mk 1 1 10 1 None;
                       TrackPoint.mk 2 2 1 2 None ] in
  let tbl := [ LinePoint.mk 7 9 9 1 5 None; LinePoint.mk 8 9 9 1 0 None ] in
  0 < 2 /\
  getAllLinePoints (_setLinePoints 2 7 trackPoints tbl) 7 = trackPoints.
Proof.
  intros trackPoints tbl.
  assert (Hn : 0 < 2) by lia.
  split; [exact Hn|].
  apply (getAllLinePoints_after_setLinePoints 2 7%N trackPoints tbl Hn).
  repeat constructor; lia.
Defined.

(** X5. What [deleteLine] does to the points: [_setLinePoints] with no
    points and [_noEvent] is the single delete statement, for every size
    of the batches; afterwards the line has no stored point, the other
    lines have theirs, and no [linePoints] event is emitted. *)
Theorem setLinePoints_empty_deletes :
  forall (ITEMS_PER_BATCH : nat) (padId : string) (lineId : ID) (tbl : LinePoints),
    observable (_setLinePoints_statements ITEMS_PER_BATCH lineId []) tbl
      = [ tbl; _setLinePoints ITEMS_PER_BATCH lineId [] tbl ] /\
    pointsOf lineId (_setLinePoints ITEMS_PER_BATCH lineId [] tbl) = [] /\
    (forall other, other <> lineId ->
       pointsOf other (_setLinePoints ITEMS_PER_BATCH lineId [] tbl)
       = pointsOf other tbl) /\
    getAllLinePoints (_setLinePoints ITEMS_PER_BATCH lineId [] tbl) lineId = [] /\
    _setLinePoints_emit padId lineId [] true = None.
Proof.
  intros n padId lineId tbl.
  assert (Hrun : _setLinePoints n lineId [] tbl
                 = LinePoint_destroy (W_obj [("lineId", [eq_to (num lineId)])]) tbl)
    by reflexivity.
  rewrite Hrun. split; [reflexivity|]. split; [apply pointsOf_destroy_same|].
  split; [intros; by apply pointsOf_destroy_other|]. split; [|reflexivity].
  unfold getAllLinePoints. by rewrite Line_getLinePoints_all, pointsOf_destroy_same.
Qed.

Lemma setLinePoints_empty_deletes_witness :
  let tbl := [ LinePoint.mk 1 0 0 1 0 None; LinePoint.mk 2 3 3 1 0 None ] in
  2%N <> 1%N /\
  pointsOf 2 (_setLinePoints 0 1 [] tbl) = pointsOf 2 tbl.
Proof.
  intros tbl.
  assert (Hne : 2%N <> 1%N) by lia.
  split; [exact Hne|].
  exact (proj1 (proj2 (proj2 (setLinePoints_empty_deletes 0 "P" 1%N tbl))) 2%N Hne).
Defined.

(* ===================================================================== *)
(** ** The custom data of markers and lines *)
(* ===================================================================== *)

Lemma dataFromArr_fold_notin (m : gmap string string) (rows : list DataRow.t) (k : string) :
  ~ In k (map DataRow.name rows) ->
  foldl (fun data row => <[DataRow.name row := DataRow.value row]> data) m rows !! k
  = m !! k.
Proof.
  revert m. induction rows as [|r rows IH]; intros m Hk; [done|].
  cbn in *. rewrite IH by tauto. apply lookup_insert_ne. tauto.
Qed.

Lemma dataFromArr_fold_in (m : gmap string string) (rows : list DataRow.t) (r : DataRow.t) :
  NoDup (map DataRow.name rows) -> In r rows ->
  foldl (fun data row => <[DataRow.name row := DataRow.value row]> data) m rows
    !! DataRow.name r = Some (DataRow.value r).
Proof.
  revert m. induction rows as [|q rows IH]; intros m Hnd Hr; [done|].
  cbn in *. apply NoDup_cons in Hnd as [Hq Hnd].
  destruct Hr as [->|Hr]; [|by apply IH].
  rewrite dataFromArr_fold_notin; [apply lookup_insert_eq|].
  intros Hin. apply Hq. by apply list_elem_of_In.
Qed.

Lemma dataToArr_names data ownerId :
  map DataRow.name (_dataToArr data ownerId) = (map_to_list data).*1.
Proof.
  unfold _dataToArr. rewrite map_map. apply map_ext. by intros [k v].
Qed.

Lemma dataToArr_owner data ownerId row :
  In row (_dataToArr data ownerId) -> DataRow.ownerId row = ownerId.
Proof.
  unfold _dataToArr. rewrite in_map_iff. by intros ([k v] & <- & _).
Qed.

(** The rows of an object, put together again. *)
Lemma dataFromArr_dataToArr_id (data : gmap string string) (ownerId : ID) :
  _dataFromArr (_dataToArr data ownerId) = data.
Proof.
  apply map_eq. intros k. unfold _dataFromArr.
  destruct (data !! k) as [v|] eqn:Hk.
  - apply elem_of_map_to_list in Hk.
    change k with (DataRow.name (DataRow.mk k v ownerId)).
    change (Some v) with (Some (DataRow.value (DataRow.mk k v ownerId))).
    apply dataFromArr_fold_in.
    + rewrite dataToArr_names. apply NoDup_fst_map_to_list.
    + unfold _dataToArr. apply in_map_iff. exists (k, v).
      split; [done|]. by apply list_elem_of_In.
  - rewrite dataFromArr_fold_notin; [done|].
    rewrite dataToArr_names. intros Hin.
    apply list_elem_of_In, list_elem_of_fmap in Hin as ([k' v] & -> & Hin).
    apply elem_of_map_to_list in Hin. cbn in Hk. congruence.
Qed.


Lemma dataRowsOf_app objId r1 r2 :
  dataRowsOf objId (r1 ++ r2) = (dataRowsOf objId r1 ++ dataRowsOf objId r2)%list.
Proof. apply List.filter_app. Qed.

Lemma dataRowsOf_removed objId rows :
  dataRowsOf objId
    (List.filter (fun row => negb (N.eqb (DataRow.ownerId row) objId)) rows) = [].
Proof.
  unfold dataRowsOf. rewrite filter_filter_andb. apply filter_none.
  intros row _. by destruct (N.eqb _ _).
Qed.

Lemma dataRowsOf_removed_other objId other rows :
  other <> objId ->
  dataRowsOf other
    (List.filter (fun row => negb (N.eqb (DataRow.ownerId row) objId)) rows)
  = dataRowsOf other rows.
Proof.
  intros Hne. unfold dataRowsOf. rewrite filter_filter_andb.
  apply List.filter_ext. intros row.
  destruct (N.eqb_spec (DataRow.ownerId row) objId) as [->|_]; [|done].
  cbn. symmetry. by apply N.eqb_neq.
Qed.

Lemma dataRowsOf_dataToArr_same data objId :
  dataRowsOf objId (_dataToArr data objId) = _dataToArr data objId.
Proof.
  unfold dataRowsOf, _dataToArr.
  induction (map_to_list data) as [|[k v] l IH]; [done|].
  cbn. by rewrite N.eqb_refl, IH.
Qed.

Lemma dataRowsOf_dataToArr_other data objId other :
  other <> objId -> dataRowsOf other (_dataToArr data objId) = [].
Proof.
  intros Hne. apply filter_none. intros row Hrow.
  apply dataToArr_owner in Hrow. apply N.eqb_neq. congruence.
Qed.

Lemma model_set_model type rows db :
  DataTables.model type (DataTables.set_model type rows db) = rows.
Proof. by destruct type. Qed.

Lemma getObjectData_set_same type objId data db :
  _getObjectData type objId (_setObjectData type objId data db) = data.
Proof.
  unfold _getObjectData, _setObjectData. rewrite model_set_model.
  rewrite dataRowsOf_app, dataRowsOf_removed, dataRowsOf_dataToArr_same.
  apply dataFromArr_dataToArr_id.
Qed.

Lemma getObjectData_set_other type objId other data db :
  other <> objId ->
  _getObjectData type other (_setObjectData type objId data db)
  = _getObjectData type other db.
Proof.
  intros Hne. unfold _getObjectData, _setObjectData. rewrite model_set_model.
  rewrite dataRowsOf_app, dataRowsOf_removed_other, dataRowsOf_dataToArr_other by done.
  by rewrite app_nil_r.
Qed.



(* ===================================================================== *)
(** ** Markers *)
(* ===================================================================== *)

(** The bbox condition on a marker row. *)
Lemma makeBboxCondition_marker b z e (m : MarkerRow.t) :
  evalWhere (MarkerRow.col m)
    (_makeBboxCondition (Some (BboxWithZoom.make b z e)) None)
  = inBbox b (MarkerRow.lat m) (MarkerRow.lon m)
    && match e with
       | Some e => negb (inBbox e (MarkerRow.lat m) (MarkerRow.lon m))
       | None => true
       end.
Proof.
  rewrite !inBbox_eq. destruct e as [e|]; [rewrite inBbox_eq|];
    destruct b as [t bo l r]; try destruct e as [et eb el er];
    unfold _makeBboxCondition; eval_where.
  - destruct (Qlt_bool r l), (Qlt_bool er el); eval_where;
      rewrite !Qlt_bool_negb;
      destruct (Qle_bool (MarkerRow.lat m) t), (Qle_bool bo (MarkerRow.lat m)),
        (Qle_bool l (MarkerRow.lon m)), (Qle_bool (MarkerRow.lon m) r),
        (Qle_bool (MarkerRow.lat m) et), (Qle_bool eb (MarkerRow.lat m)),
        (Qle_bool el (MarkerRow.lon m)), (Qle_bool (MarkerRow.lon m) er); reflexivity.
  - destruct (Qlt_bool r l); eval_where; reflexivity.
Qed.

(** X8. [getPadMarkers] returns exactly the markers of the pad that lie
    inside the bbox and, if there is an [except], outside of it, each
    with the data that [_getObjectData] reads for it; without a bbox it
    returns all markers of the pad. *)
Theorem getPadMarkers_exact :
  forall (markers : list MarkerRow.t) (db : DataTables.t) (padId : string)
         (m : MarkerRow.t) (data : gmap string string),
    (forall (b : Bbox.t) (z : N) (e : option Bbox.t),
       In (m, data)
          (Backend.getPadMarkers markers db padId (Some (BboxWithZoom.make b z e))) <->
       In m markers /\ MarkerRow.padId m = padId /\
       inBbox b (MarkerRow.lat m) (MarkerRow.lon m) = true /\
       (forall e', e = Some e' ->
          inBbox e' (MarkerRow.lat m) (MarkerRow.lon m) = false) /\
       data = _getObjectData OwnerMarker (MarkerRow.id m) db) /\
    (In (m, data) (Backend.getPadMarkers markers db padId None) <->
     In m markers /\ MarkerRow.padId m = padId /\
     data = _getObjectData OwnerMarker (MarkerRow.id m) db).
Proof.
  intros markers db padId m data.
  assert (Hin : forall bbox,
    In (m, data) (Backend.getPadMarkers markers db padId bbox) <->
    In m markers /\ MarkerRow.padId m = padId /\
    evalWhere (MarkerRow.col m) (_makeBboxCondition bbox None) = true /\
    data = _getObjectData OwnerMarker (MarkerRow.id m) db).
  { intros bbox. unfold Backend.getPadMarkers. rewrite in_map_iff. split.
    - intros (it & [= -> <-] & Hit).
      apply filter_In in Hit as [Hit Hcond].
      apply andb_true_iff in Hcond as [Hpad Hw]. apply String.eqb_eq in Hpad.
      done.
    - intros (Hm & Hpad & Hw & ->). exists m. split; [done|].
      apply filter_In. split; [done|].
      apply andb_true_iff. split; [by apply String.eqb_eq|done]. }
  split.
  - intros b z e. rewrite Hin, makeBboxCondition_marker, andb_true_iff.
    destruct e as [e|].
    + rewrite negb_true_iff. split.
      * intros (? & ? & [? ?] & ?). repeat split; try done. by intros e' [= <-].
      * intros (? & ? & ? & He & ?). repeat split; try done. by apply He.
    + split.
      * intros (? & ? & [? _] & ?). repeat split; done.
      * intros (? & ? & ? & _ & ?). repeat split; done.
  - rewrite Hin. cbn. tauto.
Qed.

Lemma getPadMarkers_exact_witness :
  let m := MarkerRow.mk 1 "pad" 5 5 (Some "Peak") "ff0000" 3 in
  let markers := [ m; MarkerRow.mk 2 "pad" 50 50 None "00ff00" 3;
                   MarkerRow.mk 3 "other" 5 5 None "0000ff" 3 ] in
  let db := DataTables.mk [ DataRow.mk "height" "12" 1 ] [] in
  let data : gmap string string := {[ "height" := "12" ]} in
  In (m, data)
     (Backend.getPadMarkers markers db "pad"
        (Some (BboxWithZoom.make (Bbox.mk 10 0 0 10) 5 None))) /\
  In (m, data) (Backend.getPadMarkers markers db "pad" None).
Proof.
  intros m markers db data.
  destruct (getPadMarkers_exact markers db "pad" m data) as [Hbbox Hall].
  split.
  - apply Hbbox. split; [left; reflexivity|]. split; [reflexivity|].
    split; [vm_compute; reflexivity|]. split; [discriminate|].
    vm_compute; reflexivity.
  - apply Hall. split; [left; reflexivity|]. split; [reflexivity|].
    vm_compute; reflexivity.
Defined.




Lemma find_some_iff {A : Type} (f : A -> bool) (l : list A) :
  is_Some (List.find f l) <-> exists x, In x l /\ f x = true.
Proof.
  split.
  - intros [x Hx]. apply find_some in Hx. eauto.
  - intros (x & Hx & Hf). destruct (List.find f l) eqn:Hfind; [eauto|].
    by rewrite (find_none _ _ Hfind x Hx) in Hf.
Qed.

(** X10. [deleteMarker] of the backend. For a known id the promise is
    fulfilled with a stored marker of that id, no marker of that id is
    left, and the other markers stay; for an unknown id it is rejected
    with the TypeError of [null.destroy()] and the markers stay as they
    are. In both cases the data rows of the id are gone, and the data of
    other markers and of lines is untouched. *)
Theorem deleteMarker_removes_marker_and_data :
  forall (markerId : ID) (markers : list MarkerRow.t) (db : DataTables.t),
    let '(markers', db', result) := Backend.deleteMarker markerId markers db in
    _getObjectData OwnerMarker markerId db' = ∅ /\
    (forall other, other <> markerId ->
       _getObjectData OwnerMarker other db' = _getObjectData OwnerMarker other db) /\
    DataTables.LineData db' = DataTables.LineData db /\
    match result with
    | Fulfilled obj =>
      In obj markers /\ MarkerRow.id obj = markerId /\
      (forall m, In m markers' <-> In m markers /\ MarkerRow.id m <> markerId)
    | RejectedTypeError =>
      (forall m, In m markers -> MarkerRow.id m <> markerId) /\ markers' = markers
    end.
Proof.
  intros markerId markers db. unfold Backend.deleteMarker, _deletePadObject.
  pose proof (getObjectData_set_same OwnerMarker markerId ∅ db) as Hsame.
  pose proof (fun other => getObjectData_set_other OwnerMarker markerId other ∅ db)
    as Hother.
  destruct (List.find _ markers) as [obj|] eqn:Hfind.
  - split; [done|]. split; [done|]. split; [done|].
    apply find_some in Hfind as [Hobj Hid]. apply N.eqb_eq in Hid.
    split; [done|]. split; [done|].
    intros m. rewrite filter_In, negb_true_iff, N.eqb_neq. done.
  - split; [done|]. split; [done|]. split; [done|]. split; [|done].
    intros m Hm. apply (find_none _ _ Hfind) in Hm. by apply N.eqb_neq.
Qed.

Lemma deleteMarker_removes_marker_and_data_witness :
  let m := MarkerRow.mk 1 "pad" 5 5 (Some "Peak") "ff0000" 3 in
  let m2 := MarkerRow.mk 2 "pad" 50 50 None "00ff00" 3 in
  let db := DataTables.mk [ DataRow.mk "height" "12" 1; DataRow.mk "height" "7" 2 ]
                          [ DataRow.mk "surface" "gravel" 1 ] in
  exists markers' db',
    Backend.deleteMarker 1 [ m; m2 ] db = (markers', db', Fulfilled m) /\
    _getObjectData OwnerMarker 1 db' = ∅ /\
    (In m2 markers' <-> In m2 [ m; m2 ] /\ MarkerRow.id m2 <> 1%N).
Proof.
  intros m m2 db.
  pose proof (deleteMarker_removes_marker_and_data 1 [ m; m2 ] db) as H.
  destruct (Backend.deleteMarker 1 [ m; m2 ] db) as [[markers' db'] result] eqn:E.
  exists markers', db'.
  assert (Hres : result = Fulfilled m)
    by (vm_compute in E; injection E as _ _ <-; reflexivity).
  subst result. destruct H as (Hdata & _ & _ & _ & _ & Hrest).
  split; [reflexivity|]. split; [exact Hdata|apply Hrest].
Defined.


(* ===================================================================== *)
(** ** Pads *)
(* ===================================================================== *)

Lemma filter_length_pos {A : Type} (f : A -> bool) (l : list A) :
  Nat.ltb 0 (length (List.filter f l)) = true <-> exists x, In x l /\ f x = true.
Proof.
  rewrite Nat.ltb_lt. split.
  - destruct (List.filter f l) as [|x l'] eqn:Hf; [cbn; lia|]. intros _.
    exists x. apply filter_In. rewrite Hf. by left.
  - intros (x & Hx & Hfx).
    assert (Hin : In x (List.filter f l)) by (by apply filter_In).
    destruct (List.filter f l); [done|cbn; lia].
Qed.

(** X11. [padIdExists(padId)] holds exactly when a pad is found under
    [padId], by [getPadData] as its read id or by [getPadDataByWriteId]
    as its write id; what these two find carries the id asked for, and
    its [defaultView], when there is one, is the view whose id is the
    [defaultViewId] of the pad. *)
Theorem padIdExists_iff_found :
  forall (pads : list PadRow.t) (views : list ViewRow.t) (padId : string),
    (Pads.padIdExists pads padId = true <->
     is_Some (Pads.getPadData pads views padId) \/
     is_Some (Pads.getPadDataByWriteId pads views padId)) /\
    (forall pad view,
       Pads.getPadData pads views padId = Some (pad, view) ->
       In pad pads /\ PadRow.id pad = padId) /\
    (forall pad view,
       Pads.getPadDataByWriteId pads views padId = Some (pad, view) ->
       In pad pads /\ PadRow.writeId pad = padId) /\
    (forall pad view,
       Pads.getPadData pads views padId = Some (pad, Some view) \/
       Pads.getPadDataByWriteId pads views padId = Some (pad, Some view) ->
       In view views /\ PadRow.defaultViewId pad = Some (ViewRow.id view)).
Proof.
  intros pads views padId.
  unfold Pads.padIdExists, Pads.getPadData, Pads.getPadDataByWriteId.
  split; [|split; [|split]].
  - rewrite filter_length_pos, !fmap_is_Some, !find_some_iff. split.
    + intros (p & Hp & Hor). apply orb_true_iff in Hor as [H|H]; eauto.
    + intros [(p & Hp & H)|(p & Hp & H)]; exists p; rewrite H;
        (split; [done|]); by rewrite ?orb_true_r.
  - intros pad view Hfind. apply fmap_Some in Hfind as (p & Hp & [= -> _]).
    apply find_some in Hp as [Hp Hid]. by apply String.eqb_eq in Hid.
  - intros pad view Hfind. apply fmap_Some in Hfind as (p & Hp & [= -> _]).
    apply find_some in Hp as [Hp Hid]. by apply String.eqb_eq in Hid.
  - assert (Hview : forall p pad view,
      Pads.withDefaultView views p = (pad, Some view) ->
      In view views /\ PadRow.defaultViewId pad = Some (ViewRow.id view)).
    { intros p pad view. unfold Pads.withDefaultView.
      intros [= <- Hv]. destruct (PadRow.defaultViewId p) as [v|]; [|done].
      apply find_some in Hv as [Hv Hid]. apply N.eqb_eq in Hid. by subst. }
    intros pad view [Hfind|Hfind];
      apply fmap_Some in Hfind as (p & _ & Heq); by apply (Hview p).
Qed.

Lemma padIdExists_iff_found_witness :
  let pads := [ PadRow.mk "read" (Some "Hike") "write" (Some 2%N);
                PadRow.mk "other" None "secret" None ] in
  let views := [ ViewRow.mk 1 "read" "All" "osm" "" 10 0 0 10;
                 ViewRow.mk 2 "read" "Hut" "osm" "" 5 4 4 5 ] in
  Pads.padIdExists pads "write" = true /\
  exists pad view,
    Pads.getPadDataByWriteId pads views "write" = Some (pad, Some view) /\
    In view views /\ PadRow.defaultViewId pad = Some (ViewRow.id view).
Proof.
  intros pads views.
  destruct (padIdExists_iff_found pads views "write") as (Hex & _ & _ & Hview).
  split.
  - apply Hex. right. vm_compute. eauto.
  - exists (PadRow.mk "read" (Some "Hike") "write" (Some 2%N)),
           (ViewRow.mk 2 "read" "Hut" "osm" "" 5 4 4 5).
    assert (Hfound : Pads.getPadDataByWriteId pads views "write"
                     = Some (PadRow.mk "read" (Some "Hike") "write" (Some 2%N),
                             Some (ViewRow.mk 2 "read" "Hut" "osm" "" 5 4 4 5)))
      by (vm_compute; reflexivity).
    split; [exact Hfound|].
    apply (Hview _ _ (or_intror Hfound)).
Defined.


(* ===================================================================== *)
(** ** The client: requests *)
(* ===================================================================== *)

Lemma emit_client {A : Type} (eventName : string) (answer : option Err * A)
    (this : Client.t) :
  fst (_emit eventName answer this) = this.
Proof.
  destruct this, answer as [[err|] data]; unfold _emit; cbn;
    try destruct (negb (String.eqb err "")); cbn;
    unfold Client.set_loading; cbn; f_equal; lia.
Qed.

Lemma emit_result {A : Type} (eventName : string) (answer : option Err * A)
    (this : Client.t) :
  snd (_emit eventName answer this)
  = match fst answer with
    | Some err => if truthy (Some err) then inl err else inr (snd answer)
    | None => inr (snd answer)
    end.
Proof.
  destruct answer as [[err|] data]; unfold _emit; cbn;
    try destruct (negb (String.eqb err "")); reflexivity.
Qed.

Lemma emit_eq {A : Type} (eventName : string) (answer : option Err * A)
    (this : Client.t) :
  _emit eventName answer this
  = (this, match fst answer with
           | Some err => if truthy (Some err) then inl err else inr (snd answer)
           | None => inr (snd answer)
           end).
Proof.
  pose proof (emit_client eventName answer this) as H1.
  pose proof (emit_result eventName answer this) as H2.
  destruct (_emit eventName answer this) as [c r]. cbn in *. by subst.
Qed.

(** X12. A request leaves the client as it found it: whether the server
    answers with an error or with a value, after [_emit] the loading
    counter is back at its value and no other field has changed; the
    promise is rejected with the error exactly when the answer carries a
    truthy one, and is resolved with the data otherwise. *)
Theorem emit_restores_client :
  forall (A : Type) (eventName : string) (answer : option Err * A)
         (this : Client.t),
    fst (_emit eventName answer this) = this /\
    (forall err, snd (_emit eventName answer this) = inl err <->
                 fst answer = Some err /\ truthy (Some err) = true) /\
    (forall data, snd (_emit eventName answer this) = inr data ->
                  data = snd answer /\ truthy (fst answer) = false).
Proof.
  intros A eventName answer this. split; [apply emit_client|].
  rewrite emit_result. destruct answer as [[e|] d]; cbn [fst snd].
  - destruct (truthy (Some e)) eqn:He; split.
    + intros err. split; [by intros [= <-]|by intros [[= <-] _]].
    + intros data H. discriminate H.
    + intros err. split; [intros H; discriminate H|intros [[= <-] H]; congruence].
    + intros data [= <-]. done.
  - split.
    + intros err. split; [intros H; discriminate H|intros [H _]; discriminate H].
    + intros data [= <-]. done.
Qed.

Lemma emit_restores_client_witness :
  let this :=
    Client.mk false (Some "pad") None None None None false
              ∅ ∅ ∅ ∅ ∅ None ∅ 2 in
  fst (_emit "editMarker" (Some "", 7%N) this) = this /\
  snd (_emit "editMarker" (Some "", 7%N) this) = inr 7%N /\
  snd (_emit "editMarker" (Some "Unknown marker", 7%N) this) = inl "Unknown marker".
Proof.
  intros this.
  destruct (emit_restores_client N "editMarker" (Some "", 7%N) this) as (Hthis & _ & _).
  destruct (emit_restores_client N "editMarker" (Some "Unknown marker", 7%N) this)
    as (_ & Herr & _).
  split; [exact Hthis|]. split; [vm_compute; reflexivity|].
  apply Herr. split; reflexivity.
Defined.


(** X13. [getMarker] and [addMarker]: when the server answers with a
    marker, exactly this marker is stored under its id and nothing else
    changes; when it answers with an error, or with no marker at all, the
    promise is rejected and the client is unchanged. *)
Theorem addMarker_stores_marker :
  forall (answer : option Err * option Marker.t) (this : Client.t),
    addMarker answer this = getMarker answer this /\
    (forall marker,
       truthy (fst answer) = false -> snd answer = Some marker ->
       addMarker answer this
       = (Client.set_markers (<[Marker.id marker := marker]> (Client.markers this)) this,
          Resolved marker)) /\
    (truthy (fst answer) = true ->
       fst (addMarker answer this) = this /\
       exists err, fst answer = Some err /\ snd (addMarker answer this) = Rejected err) /\
    (truthy (fst answer) = false -> snd answer = None ->
       addMarker answer this = (this, RejectedWithTypeError)).
Proof.
  intros answer this. unfold addMarker, getMarker, emitAndStoreMarker.
  rewrite !emit_eq. split; [done|].
  destruct answer as [[err|] [marker|]]; cbn [fst snd];
    try destruct (truthy (Some err)) eqn:He;
    (split; [intros m H; try discriminate H; by intros [= <-]|]);
    (split; [intros H; try discriminate H; eauto|]);
    intros H; try discriminate H; by intros.
Qed.

Lemma addMarker_stores_marker_witness :
  let marker := Marker.mk 4 [("name", "Peak")] in
  let this :=
    Client.mk false (Some "pad") None None None None false
              ∅ ∅ ∅ ∅ ∅ None ∅ 0 in
  Client.markers (fst (addMarker (None, Some marker) this)) !! 4%N = Some marker.
Proof.
  intros marker this.
  assert (H1 : truthy (fst ((None, Some marker) : option Err * option Marker.t)) = false)
    by reflexivity.
  rewrite (proj1 (proj2 (addMarker_stores_marker (None, Some marker) this))
                 marker H1 eq_refl).
  reflexivity.
Defined.

(** X14. [setRoute] and [lineToRoute]. With a truthy [routeId] the route
    is stored in [routes] under that id and [route] is untouched; without
    one, or with the empty string as [routeId], it becomes [route] and
    [routes] is untouched. The stored track points are the merge of the
    returned ones into an empty object. When the server answers with no
    route, or with an error, the client is unchanged. *)
Theorem setRoute_stores_route :
  forall (data : RouteCreate.t) (answer : option Err * option Route.t)
         (this : Client.t),
    lineToRoute data answer this = setRoute data answer this /\
    (forall route,
       truthy (fst answer) = false -> snd answer = Some route ->
       let result :=
         RouteWithTrackPoints.mk (Route.routeId route)
           (_mergeTrackPoints (Some ∅) (Route.trackPoints route)) (Route.other route) in
       snd (setRoute data answer this) = Resolved (Some result) /\
       (forall routeId,
          RouteCreate.routeId data = Some routeId -> routeId <> "" ->
          fst (setRoute data answer this)
          = Client.set_routes (<[routeId := result]> (Client.routes this)) this) /\
       (RouteCreate.routeId data = None \/ RouteCreate.routeId data = Some "" ->
          fst (setRoute data answer this) = Client.set_route (Some result) this)) /\
    (truthy (fst answer) = false -> snd answer = None ->
       setRoute data answer this = (this, Resolved None)) /\
    (truthy (fst answer) = true -> fst (setRoute data answer this) = this).
Proof.
  intros data answer this. unfold lineToRoute, setRoute, emitAndStoreRoute.
  rewrite !emit_eq. split; [done|].
  destruct answer as [[err|] [route|]]; cbn [fst snd];
    try destruct (truthy (Some err)) eqn:He.
  all: split; [intros r H1 H2; try discriminate H1; try discriminate H2|].
  all: try (injection H2 as <-; split; [done|]; split;
            [intros routeId -> Hne; cbn;
             by destruct (String.eqb_spec routeId "")
            |intros [->| ->]; by cbn]).
  all: split; [intros H1 H2; try discriminate H1; try discriminate H2; done|].
  all: intros H; try discriminate H; done.
Qed.

Lemma setRoute_stores_route_witness :
  let route := Route.mk None [ TrackPoint.mk 0 0 1 0 None; TrackPoint.mk 1 1 1 4 None ] [] in
  let this :=
    Client.mk false (Some "pad") None None None None false
              ∅ ∅ ∅ ∅ ∅ None ∅ 0 in
  let data := RouteCreate.mk (Some "r1") [] in
  exists result,
    Client.routes (fst (setRoute data (None, Some route) this)) !! "r1" = Some result /\
    TrackPoints.length (RouteWithTrackPoints.trackPoints result) = 5%N.
Proof.
  intros route this data.
  assert (H1 : truthy (fst ((None, Some route) : option Err * option Route.t)) = false)
    by reflexivity.
  assert (Hne : "r1" <> "") by discriminate.
  destruct (proj1 (proj2 (setRoute_stores_route data (None, Some route) this))
              route H1 eq_refl) as (_ & Hstore & _).
  rewrite (Hstore "r1" eq_refl Hne). eexists. split; [apply lookup_insert_eq|].
  vm_compute. reflexivity.
Defined.

(** X15. [clearRoute] undoes [setRoute]: a route stored under a fresh
    truthy [routeId] is removed again by [clearRoute] with that id, and
    the client is as before both calls, whether the server accepts the
    second request or not. A [clearRoute] without [routeId] while no
    route is set returns without sending a request and changes
    nothing. *)
Theorem clearRoute_after_setRoute :
  forall (this : Client.t),
    (forall (routeId : string) (other : list (string * string)) (route : Route.t)
            (answer : option Err * unit),
       routeId <> "" ->
       Client.routes this !! routeId = None ->
       let stored :=
         fst (setRoute (RouteCreate.mk (Some routeId) other) (None, Some route) this) in
       is_Some (Client.routes stored !! routeId) /\
       fst (clearRoute (Some (RouteClear.mk (Some routeId))) answer stored) = this /\
       is_Some (snd (clearRoute (Some (RouteClear.mk (Some routeId))) answer stored))) /\
    (forall (data : option RouteClear.t) (answer : option Err * unit),
       truthyRouteId data = None ->
       Client.route this = None ->
       clearRoute data answer this = (this, None)).
Proof.
  intros this. split.
  - intros routeId other route answer Hne Hfresh stored. subst stored.
    unfold setRoute, emitAndStoreRoute, clearRoute, truthyRouteId.
    rewrite emit_eq. cbn. destruct (String.eqb_spec routeId "") as [|_]; [done|].
    cbn. rewrite lookup_insert_eq. split; [eauto|].
    rewrite emit_eq. cbn. split; [|eauto].
    destruct this. unfold Client.set_routes. cbn in *. f_equal.
    by apply delete_insert_id.
  - intros data answer Hdata Hroute. unfold clearRoute. by rewrite Hdata, Hroute.
Qed.

Lemma clearRoute_after_setRoute_witness :
  let this :=
    Client.mk false (Some "pad") None None None None false
              ∅ ∅ ∅ ∅ ∅ None ∅ 0 in
  let route := Route.mk None [ TrackPoint.mk 0 0 1 0 None ] [] in
  fst (clearRoute (Some (RouteClear.mk (Some "r1"))) (Some "gone", tt)
         (fst (setRoute (RouteCreate.mk (Some "r1") []) (None, Some route) this)))
  = this.
Proof.
  intros this route.
  assert (Hne : "r1" <> "") by discriminate.
  assert (Hfresh : Client.routes this !! "r1" = None) by reflexivity.
  exact (proj1 (proj2 (proj1 (clearRoute_after_setRoute this)
                         "r1" [] route (Some "gone", tt) Hne Hfresh))).
Defined.

(* ===================================================================== *)
(** ** The client: event handlers *)
(* ===================================================================== *)

(** At an index that an incoming point carries, the existing mapping does
    not matter. *)
Lemma assignTrackPoints_in_indep m1 m2 l i :
  In i (map TrackPoint.idx l) ->
  assignTrackPoints m1 l !! i = assignTrackPoints m2 l !! i.
Proof.
  revert m1 m2. induction l as [|p l IH]; intros m1 m2 Hi; [done|].
  cbn in *. destruct (in_dec N.eq_dec i (map TrackPoint.idx l)) as [Hin|Hnotin].
  - by apply IH.
  - destruct Hi as [<-|Hi]; [|done].
    by rewrite !assignTrackPoints_notin, !lookup_insert_eq.
Qed.

Lemma assignTrackPoints_idemp m l :
  assignTrackPoints (assignTrackPoints m l) l = assignTrackPoints m l.
Proof.
  apply map_eq. intros i.
  destruct (in_dec N.eq_dec i (map TrackPoint.idx l)) as [Hin|Hnotin].
  - by apply assignTrackPoints_in_indep.
  - by rewrite assignTrackPoints_notin.
Qed.

Lemma mergeTrackPoints_idemp existing new :
  _mergeTrackPoints (Some (TrackPoints.points (_mergeTrackPoints existing new))) new
  = _mergeTrackPoints existing new.
Proof.
  unfold _mergeTrackPoints. cbn. by rewrite assignTrackPoints_idemp.
Qed.

Lemma mergeTrackPoints_idemp_assign m new :
  _mergeTrackPoints (Some (assignTrackPoints m new)) new
  = _mergeTrackPoints (Some m) new.
Proof. apply (mergeTrackPoints_idemp (Some m)). Qed.



(** X17. Deleting what is not there is no error and no change: a
    [deleteMarker], [deleteLine] or [deleteType] event for an id the
    client does not hold leaves the client as it is, and so does a
    [deleteView] event for an unknown view that is not the default view
    of the pad. *)
Theorem delete_unknown_is_noop :
  forall (this : Client.t) (id : ID),
    (Client.markers this !! id = None -> _handlers (E_deleteMarker id) this = this) /\
    (Client.lines this !! id = None -> _handlers (E_deleteLine id) this = this) /\
    (Client.types this !! id = None -> _handlers (E_deleteType id) this = this) /\
    (Client.views this !! id = None ->
     (forall padData, Client.padData this = Some padData ->
                      PadData.defaultViewId padData <> Some id) ->
     _handlers (E_deleteView id) this = this).
Proof.
  intros this id. destruct this. cbn.
  split; [|split; [|split]].
  - intros H. unfold Client.set_markers. cbn. by rewrite delete_id.
  - intros H. unfold Client.set_lines. cbn. by rewrite delete_id.
  - intros H. unfold Client.set_types. cbn. by rewrite delete_id.
  - intros H Hdefault. rewrite delete_id by done.
    destruct padData as [pd|]; cbn; [|done].
    specialize (Hdefault pd eq_refl).
    destruct (PadData.defaultViewId pd) as [v|]; cbn; [|done].
    destruct (N.eqb_spec v id) as [->|_]; [done|done].
Qed.

Lemma delete_unknown_is_noop_witness :
  let this :=
    Client.mk false (Some "pad") None None None None false
              {[ 1%N := Marker.mk 1 [] ]} ∅ ∅ ∅ ∅ None ∅ 0 in
  Client.markers this !! 2%N = None /\
  _handlers (E_deleteMarker 2) this = this.
Proof.
  intros this.
  assert (H : Client.markers this !! 2%N = None) by reflexivity.
  split; [exact H|]. exact (proj1 (delete_unknown_is_noop this 2%N) H).
Defined.

(** X18. The track points the client holds for a line are changed by the
    [linePoints] events of that line only, and dropped only with the line
    itself: every other event, a [line] event updating the very line
    included, leaves the line in place with the same track points. *)
Theorem trackPoints_survive_other_events :
  forall (e : Event) (this : Client.t) (id : ID) (line : LineWithTrackPoints.t),
    Client.lines this !! id = Some line ->
    (forall trackPoints reset, e <> E_linePoints id trackPoints reset) ->
    e <> E_deleteLine id ->
    e <> E_disconnect ->
    exists line',
      Client.lines (_handlers e this) !! id = Some line' /\
      LineWithTrackPoints.trackPoints line' = LineWithTrackPoints.trackPoints line.
Proof.
  intros e this id line Hline Hpoints Hdelete Hdisconnect.
  destruct e; cbn; try (exists line; by split).
  - destruct (PadData.writable data); cbn;
      repeat match goal with |- context [if ?b then _ else _] => destruct b end;
      repeat match goal with |- context [match ?o with Some _ => _ | None => _ end] =>
                               destruct o end; cbn; exists line; by split.
  - destruct (decide (Line.id data = id)) as [->|Hne].
    + rewrite lookup_insert_eq, Hline. eexists. by split.
    + rewrite lookup_insert_ne by done. exists line. by split.
  - destruct (decide (id0 = id)) as [->|Hne]; [done|].
    rewrite lookup_delete_ne by done. exists line. by split.
  - destruct (decide (id0 = id)) as [->|Hne]; [by destruct (Hpoints trackPoints reset)|].
    destruct (Client.lines this !! id0); cbn; [|exists line; by split].
    rewrite lookup_insert_ne by done. exists line. by split.
  - destruct (Client.route this); cbn; exists line; by split.
  - destruct (Client.routes this !! routeId); cbn; exists line; by split.
  - destruct (Client.padData this); cbn; [|exists line; by split].
    destruct (N_eqb_opt _ _); cbn; exists line; by split.
Qed.

Lemma trackPoints_survive_other_events_witness :
  let tp := _mergeTrackPoints (Some ∅) [ TrackPoint.mk 0 0 1 0 None ] in
  let this :=
    Client.mk false (Some "pad") None None None None false
              ∅ {[ 3%N := LineWithTrackPoints.mk (Line.mk 3 []) tp ]}
              ∅ ∅ ∅ None ∅ 0 in
  exists line',
    Client.lines (_handlers (E_line (Line.mk 3 [("name", "Trail")])) this) !! 3%N
      = Some line' /\
    LineWithTrackPoints.trackPoints line' = tp.
Proof.
  intros tp this.
  refine (trackPoints_survive_other_events
            (E_line (Line.mk 3 [("name", "Trail")])) this 3%N
            (LineWithTrackPoints.mk (Line.mk 3 []) tp) _ _ _ _);
    [reflexivity|intros; discriminate|discriminate|discriminate].
Defined.

(** X19. The [linePoints] event. For a line the client does not hold it
    changes nothing. For a held line it keeps the line's properties; with
    [reset] the points held afterwards are exactly at the indexes of the
    incoming points, and without [reset] at the old indexes and the
    incoming ones. *)
Theorem linePoints_event :
  forall (this : Client.t) (id : ID) (trackPoints : list TrackPoint.t)
         (reset : bool),
    (Client.lines this !! id = None ->
       _handlers (E_linePoints id trackPoints reset) this = this) /\
    (forall line,
       Client.lines this !! id = Some line ->
       exists line',
         Client.lines (_handlers (E_linePoints id trackPoints reset) this) !! id
           = Some line' /\
         LineWithTrackPoints.line line' = LineWithTrackPoints.line line /\
         forall i,
           is_Some (TrackPoints.points (LineWithTrackPoints.trackPoints line') !! i) <->
           In i (map TrackPoint.idx trackPoints) \/
           (reset = false /\
            is_Some (TrackPoints.points (LineWithTrackPoints.trackPoints line) !! i))).
Proof.
  intros this id tps reset. split.
  - intros Hline. cbn. by rewrite Hline.
  - intros line Hline. cbn. rewrite Hline. cbn. rewrite lookup_insert_eq.
    eexists. split; [done|]. split; [done|]. intros i. cbn.
    destruct (in_dec N.eq_dec i (map TrackPoint.idx tps)) as [Hin|Hnotin].
    + split; [by left|]. intros _.
      destruct reset;
        match goal with |- is_Some (assignTrackPoints ?m _ !! _) =>
          destruct (assignTrackPoints_in m tps i Hin) as (p & _ & _ & ->) end; eauto.
    + rewrite assignTrackPoints_notin by done. destruct reset; cbn.
      * rewrite lookup_empty. split; [by intros [? ?]|]. intros [?|[? _]]; done.
      * split; [by right|]. intros [?|[_ ?]]; done.
Qed.

Lemma linePoints_event_witness :
  let held := _mergeTrackPoints (Some ∅) [ TrackPoint.mk 0 0 1 0 None ] in
  let this :=
    Client.mk false (Some "pad") None None None None false
              ∅ {[ 3%N := LineWithTrackPoints.mk (Line.mk 3 [("name", "Trail")]) held ]}
              ∅ ∅ ∅ None ∅ 0 in
  let new := [ TrackPoint.mk 1 1 1 4 None ] in
  _handlers (E_linePoints 5 new false) this = this /\
  exists line',
    Client.lines (_handlers (E_linePoints 3 new false) this) !! 3%N = Some line' /\
    LineWithTrackPoints.line line' = Line.mk 3 [("name", "Trail")] /\
    is_Some (TrackPoints.points (LineWithTrackPoints.trackPoints line') !! 0%N) /\
    is_Some (TrackPoints.points (LineWithTrackPoints.trackPoints line') !! 4%N).
Proof.
  intros held this new.
  split.
  - apply (linePoints_event this 5 new false). vm_compute; reflexivity.
  - destruct (linePoints_event this 3 new false) as [_ H].
    destruct (H (LineWithTrackPoints.mk (Line.mk 3 [("name", "Trail")]) held))
      as (line' & Hline' & Hprops & Hidx); [vm_compute; reflexivity|].
    exists line'. split; [exact Hline'|]. split; [exact Hprops|]. split.
    + apply Hidx. right. split; [reflexivity|]. vm_compute. eauto.
    + apply Hidx. left. left. reflexivity.
Defined.



Lemma handlers_readonly_writable e this :
  readonlyMatchesWritable this -> readonlyMatchesWritable (_handlers e this).
Proof.
  unfold readonlyMatchesWritable. intros Hinv. destruct e; cbn; try done.
  - destruct (PadData.writable data) as [w|]; cbn;
      repeat match goal with |- context [if ?b then _ else _] => destruct b end;
      repeat match goal with |- context [match ?o with Some _ => _ | None => _ end] =>
                               destruct o end; done.
  - by destruct (Client.lines this !! id).
  - by destruct (Client.route this).
  - by destruct (Client.routes this !! routeId).
  - destruct (Client.padData this); [|done]. by destruct (N_eqb_opt _ _).
Qed.

Lemma receiveMultiple_readonly_writable obj this :
  readonlyMatchesWritable this -> readonlyMatchesWritable (_receiveMultiple obj this).
Proof.
  destruct obj as [events|]; [|done]. cbn. revert this.
  induction events as [|e events IH]; intros this Hinv; [done|].
  cbn. apply IH. by apply handlers_readonly_writable.
Qed.

(** X21. [readonly] always says what [writable] says. If
    [readonly == (writable == 0)] holds before (both unset at first), it
    holds after every event, after every batch of events, and after
    [createPad] and [updateBbox], whatever the server answers; and a
    successful [createPad] whose answer carries no events leaves the
    client writable as admin. *)
Theorem readonly_matches_writable :
  (forall (e : Event) (this : Client.t),
     readonlyMatchesWritable this -> readonlyMatchesWritable (_handlers e this)) /\
  (forall (answer : option Err * option (list Event)) (this : Client.t),
     readonlyMatchesWritable this ->
     readonlyMatchesWritable (fst (createPad answer this))) /\
  (forall (bbox : BboxWithZoom.t) (answer : option Err * option (list Event))
          (this : Client.t),
     readonlyMatchesWritable this ->
     readonlyMatchesWritable (fst (updateBbox bbox answer this))) /\
  (forall (answer : option Err * option (list Event)) (this : Client.t),
     truthy (fst answer) = false ->
     snd answer = None \/ snd answer = Some [] ->
     Client.readonly (fst (createPad answer this)) = Some false /\
     Client.writable (fst (createPad answer this)) = Some 2%N).
Proof.
  split; [exact handlers_readonly_writable|]. split; [|split].
  - intros answer this Hinv. unfold createPad. rewrite emit_eq.
    destruct answer as [[err|] obj]; cbn [fst snd];
      try destruct (truthy (Some err)); cbn [fst]; try done;
      by apply receiveMultiple_readonly_writable.
  - intros bbox answer this Hinv. unfold updateBbox. rewrite emit_eq.
    destruct answer as [[err|] obj]; cbn [fst snd];
      try destruct (truthy (Some err)); cbn [fst]; try done;
      by apply receiveMultiple_readonly_writable.
  - intros answer this Herr Hobj. unfold createPad. rewrite emit_eq.
    destruct answer as [[err|] obj]; cbn [fst snd] in *;
      try rewrite Herr; destruct Hobj as [-> | ->]; by cbn.
Qed.

Lemma readonly_matches_writable_witness :
  let this :=
    Client.mk true None None None None None false ∅ ∅ ∅ ∅ ∅ None ∅ 0 in
  let data := PadData.mk "read" (Some "write") None (Some 1%N) None [] in
  readonlyMatchesWritable this /\
  readonlyMatchesWritable (_handlers (E_padData data) this) /\
  Client.readonly (_handlers (E_padData data) this) = Some false /\
  Client.padId (_handlers (E_padData data) this) = Some "write".
Proof.
  intros this data.
  assert (Hinv : readonlyMatchesWritable this) by reflexivity.
  split; [exact Hinv|]. split; [|by split].
  exact (proj1 readonly_matches_writable (E_padData data) this Hinv).
Defined.

Lemma handlers_history_lookup e this id d :
  Client.history (_handlers e this) !! id = Some d ->
  e = E_history d /\ HistoryEntry.id d = id \/ Client.history this !! id = Some d.
Proof.
  destruct e; cbn; try (by right).
  - destruct (PadData.writable data) as [w|]; cbn;
      repeat match goal with |- context [if ?b then _ else _] => destruct b end;
      repeat match goal with |- context [match ?o with Some _ => _ | None => _ end] =>
                               destruct o end; by right.
  - destruct (Client.lines this !! id0); by right.
  - destruct (Client.route this); by right.
  - destruct (Client.routes this !! routeId); by right.
  - destruct (Client.padData this); [|by right]. destruct (N_eqb_opt _ _); by right.
  - destruct (decide (HistoryEntry.id data = id)) as [<-|Hne].
    + rewrite lookup_insert_eq. intros [= <-]. by left.
    + rewrite lookup_insert_ne by done. by right.
Qed.

Lemma receive_history_lookup events this id d :
  Client.history (foldl (fun this e => _simulateEvent e this) this events) !! id = Some d ->
  In (E_history d) events /\ HistoryEntry.id d = id \/ Client.history this !! id = Some d.
Proof.
  induction events as [|e events IH] using rev_ind; [by right|].
  rewrite foldl_snoc. intros H. apply handlers_history_lookup in H as [[-> Hid]|H].
  - left. split; [|done]. apply in_app_iff. right. by left.
  - apply IH in H as [[Hin Hid]|H]; [|by right].
    left. split; [|done]. apply in_app_iff. by left.
Qed.

(** X22. [revertHistoryEntry] drops the history the client held: after a
    successful call every history entry of the client was delivered by
    the answer of that call, under its own id; when the call fails the
    client, its history included, is unchanged. *)
Theorem revertHistoryEntry_resets_history :
  forall (answer : option Err * option (list Event)) (this : Client.t),
    (truthy (fst answer) = true ->
       fst (revertHistoryEntry answer this) = this /\
       snd (revertHistoryEntry answer this) = fst answer) /\
    (truthy (fst answer) = false ->
       snd (revertHistoryEntry answer this) = None /\
       forall id entry,
         Client.history (fst (revertHistoryEntry answer this)) !! id = Some entry ->
         HistoryEntry.id entry = id /\
         exists events, snd answer = Some events /\ In (E_history entry) events).
Proof.
  intros answer this. unfold revertHistoryEntry. rewrite emit_eq.
  destruct answer as [[err|] obj]; cbn [fst snd];
    try destruct (truthy (Some err)) eqn:He; (split; [intros H; try discriminate H; try done|]).
  all: intros H; try discriminate H; (split; [done|]); cbn [fst].
  all: intros id entry Hlook; destruct obj as [events|]; cbn in Hlook;
    try (by rewrite lookup_empty in Hlook);
    apply receive_history_lookup in Hlook as [[Hin Hid]|Hlook];
    [split; eauto|cbn in Hlook; by rewrite lookup_empty in Hlook].
Qed.

Lemma revertHistoryEntry_resets_history_witness :
  let this :=
    Client.mk false (Some "pad") None None None None false
              ∅ ∅ ∅ ∅ {[ 1%N := HistoryEntry.mk 1 [] ]} None ∅ 0 in
  let answer : option Err * option (list Event) :=
    (None, Some [ E_history (HistoryEntry.mk 2 []) ]) in
  truthy (fst answer) = false /\
  snd (revertHistoryEntry answer this) = None /\
  Client.history (fst (revertHistoryEntry answer this))
    = {[ 2%N := HistoryEntry.mk 2 [] ]}.
Proof.
  intros this answer.
  assert (H : truthy (fst answer) = false) by reflexivity.
  split; [exact H|]. split; [|vm_compute; reflexivity].
  exact (proj1 (proj2 (revertHistoryEntry_resets_history answer this) H)).
Defined.

(* ===================================================================== *)
(** ** frontend.ts: the scripts of an entry point *)
(* ===================================================================== *)

Lemma includes_In l r : includes l r = true <-> In r l.
Proof.
  unfold includes. rewrite existsb_exists. split.
  - intros (x & Hx & Heq). apply String.eqb_eq in Heq. by subst.
  - intros Hr. exists r. split; [done|]. apply String.eqb_refl.
Qed.

Lemma pushReferences_spec l rs :
  (exists extra, pushReferences l rs = (l ++ extra)%list) /\
  (forall x, In x (pushReferences l rs) <-> In x l \/ In x rs) /\
  (NoDup l -> NoDup (pushReferences l rs)).
Proof.
  unfold pushReferences. revert l. induction rs as [|r rs IH]; intros l; cbn.
  - split; [exists []; by rewrite app_nil_r|]. split; [tauto|done].
  - destruct (includes l r) eqn:Hinc.
    + apply includes_In in Hinc. destruct (IH l) as ([extra He] & Hin & Hnd).
      split; [eauto|]. split; [|done].
      intros x. rewrite Hin. split; [tauto|]. intros [?|[<-|?]]; tauto.
    + destruct (IH (l ++ [r])%list) as ([extra He] & Hin & Hnd).
      split; [exists ([r] ++ extra)%list; by rewrite He, <- app_assoc|]. split.
      * intros x. rewrite Hin, in_app_iff. cbn. tauto.
      * intros Hl. apply Hnd. apply NoDup_app. split; [done|].
        split; [|apply NoDup_singleton].
        intros x Hx Hxr. apply list_elem_of_In in Hx.
        apply list_elem_of_singleton in Hxr as ->.
        apply includes_In in Hx. congruence.
Qed.

(** Chunks without duplicates that the manifest all has are at most as
    many as the manifest has chunks. *)
Lemma NoDup_in_manifest_length {A : Type} (m : gmap string A) (l : list string) :
  NoDup l -> (forall x, In x l -> is_Some (m !! x)) -> length l <= size m.
Proof.
  intros Hnd Hin. rewrite <- length_map_to_list, <- (length_fmap fst).
  apply submseteq_length, NoDup_submseteq; [done|].
  intros x Hx. apply list_elem_of_In, Hin in Hx as [v Hv].
  apply list_elem_of_fmap. exists (x, v). split; [done|].
  by apply elem_of_map_to_list.
Qed.

Lemma collectInvariant_processed_bound manifest entry i l :
  collectInvariant manifest entry i l -> i <= size manifest.
Proof.
  intros (Hnd & _ & _ & Hdone & Hlen).
  rewrite <- (length_take_le l i Hlen).
  apply NoDup_in_manifest_length.
  - rewrite <- (take_drop i l) in Hnd. by apply NoDup_app in Hnd as [? _].
  - intros x Hx. apply list_elem_of_In, list_elem_of_lookup in Hx as (j & Hj).
    apply lookup_take_Some in Hj as [Hj Hlt].
    destruct (Hdone j x Hlt Hj) as (chunk & -> & _). eauto.
Qed.

Lemma collectInvariant_step manifest entry i l name chunk :
  collectInvariant manifest entry i l ->
  l !! i = Some name -> manifest !! name = Some chunk ->
  collectInvariant manifest entry (S i)
    (pushReferences l (ManifestChunk.references chunk)).
Proof.
  intros (Hnd & Hhead & Hreach & Hdone & Hlen) Hi Hchunk.
  destruct (pushReferences_spec l (ManifestChunk.references chunk))
    as ([extra He] & Hin & Hnd').
  split; [by apply Hnd'|]. split; [rewrite He; by apply lookup_app_l_Some|].
  split; [|split].
  - intros x Hx. apply Hin in Hx as [Hx|Hx]; [by apply Hreach|].
    apply rtc_r with name.
    + apply Hreach. apply list_elem_of_In. by apply list_elem_of_lookup_2 in Hi.
    + by exists chunk.
  - intros j x Hj Hx. destruct (decide (j = i)) as [->|Hne].
    + assert (x = name) as ->.
      { rewrite He, lookup_app_l in Hx by (by apply lookup_lt_Some in Hi). congruence. }
      exists chunk. split; [done|]. intros r Hr. apply Hin. by right.
    + assert (Hlt : j < i) by lia.
      assert (Hjl : l !! j = Some x).
      { rewrite He, lookup_app_l in Hx by lia. done. }
      destruct (Hdone j x Hlt Hjl) as (c & Hc & Hrefs).
      exists c. split; [done|]. intros r Hr. apply Hin. left. by apply Hrefs.
  - apply lookup_lt_Some in Hi. rewrite He, length_app. lia.
Qed.

(** The loop ends before the fuel does; it ends in the TypeError only at
    a reachable chunk that the manifest does not have, and otherwise with
    every chunk of the array processed. *)
Lemma collectChunks_spec manifest entry fuel i l :
  collectInvariant manifest entry i l ->
  size manifest < fuel + i ->
  match collectChunks fuel manifest i l with
  | Done l' => collectInvariant manifest entry (length l') l'
  | ChunkTypeError =>
    exists name, reachableFrom manifest entry name /\ manifest !! name = None
  | OutOfFuel => False
  end.
Proof.
  revert i l. induction fuel as [|fuel IH]; intros i l Hinv Hfuel.
  - pose proof (collectInvariant_processed_bound _ _ _ _ Hinv) as Hbound.
    cbn in Hfuel. lia.
  - cbn. destruct (l !! i) as [name|] eqn:Hi.
    + destruct (manifest !! name) as [chunk|] eqn:Hchunk.
      * apply IH; [by apply (collectInvariant_step _ _ _ _ name)|lia].
      * exists name. split; [|done]. destruct Hinv as (_ & _ & Hreach & _).
        apply Hreach, list_elem_of_In. by apply list_elem_of_lookup_2 in Hi.
    + apply lookup_ge_None in Hi.
      destruct Hinv as (Hnd & Hhead & Hreach & Hdone & Hlen).
      assert (i = length l) as -> by lia. done.
Qed.

Lemma collectInvariant_init manifest entry :
  collectInvariant manifest entry 0 [entry].
Proof.
  split; [apply NoDup_singleton|]. split; [done|]. split; [|split].
  - intros name [<-|[]]. apply rtc_refl.
  - intros j name Hj. lia.
  - cbn. lia.
Qed.

(** When the loop is through, the array holds exactly the chunks
    reachable from the entry. *)
Lemma collectInvariant_closed manifest entry l name :
  collectInvariant manifest entry (length l) l ->
  In name l <-> reachableFrom manifest entry name.
Proof.
  intros (Hnd & Hhead & Hreach & Hdone & _). split; [apply Hreach|].
  revert name. apply (rtc_ind_r (fun z => In z l)); [|intros y z Hy Hyz IH].
  - apply list_elem_of_In. by apply list_elem_of_lookup_2 in Hhead.
  - apply list_elem_of_In, list_elem_of_lookup in IH as (j & Hj).
    destruct (Hdone j y (lookup_lt_Some _ _ _ Hj) Hj) as (chunk & Hchunk & Hrefs).
    destruct Hyz as (chunk' & Hchunk' & Hz). apply Hrefs. congruence.
Qed.

Lemma lookupChunks_spec manifest names :
  (forall name, In name names -> is_Some (manifest !! name)) ->
  exists chunks,
    lookupChunks manifest names = Done chunks /\
    Forall2 (fun name chunk => manifest !! name = Some chunk) names chunks.
Proof.
  induction names as [|name names IH]; intros Hall; cbn.
  - exists []. split; [done|constructor].
  - destruct (Hall name (or_introl eq_refl)) as [chunk Hchunk]. rewrite Hchunk.
    destruct IH as (chunks & -> & Hf); [intros x Hx; apply Hall; by right|].
    exists (chunk :: chunks). split; [done|]. by constructor.
Qed.

Lemma collectChunks_entry manifest entry :
  match collectChunks (S (size manifest)) manifest 0 [entry] with
  | Done l => collectInvariant manifest entry (length l) l
  | ChunkTypeError =>
    exists name, reachableFrom manifest entry name /\ manifest !! name = None
  | OutOfFuel => False
  end.
Proof.
  apply collectChunks_spec; [apply collectInvariant_init|lia].
Qed.

Lemma collectInvariant_all_present manifest entry l name :
  collectInvariant manifest entry (length l) l ->
  In name l -> is_Some (manifest !! name).
Proof.
  intros (_ & _ & _ & Hdone & _) Hname.
  apply list_elem_of_In, list_elem_of_lookup in Hname as (j & Hj).
  destruct (Hdone j name (lookup_lt_Some _ _ _ Hj) Hj) as (chunk & -> & _). eauto.
Qed.



